(** * webrtc-go-server: session lifecycle, connection registry and signal relay

    A shallow embedding of [main.go].  The three package-level maps
    ([sessions], [userSessions], [wsConnections]) form the server state; every
    handler body that runs under [mu] is one function from the state before
    the lock is taken to the state when it is released, together with the HTTP
    response written and the WebSocket frames handed to goroutines.

    Outside the model: JWT issuing and checking ([createToken], [verifyToken],
    [authMiddleware]) -- a handler receives the verified name in the
    [X-Username] header, as in the source -- and the scheduling of the
    [go func() { conn.WriteJSON(...) }()] goroutines, which are recorded in
    program order with the value they capture at the dispatch point. *)

From stdpp Require Import gmap strings list fin_maps.
From Stdlib Require Import ZArith.

Local Open Scope string_scope.

(** ** net/http constants used by the handlers *)

Module http.
Definition MethodGet : string := "GET".
Definition MethodPost : string := "POST".
Definition MethodDelete : string := "DELETE".
Definition StatusBadRequest : Z := 400.
Definition StatusUnauthorized : Z := 401.
Definition StatusForbidden : Z := 403.
Definition StatusNotFound : Z := 404.
Definition StatusMethodNotAllowed : Z := 405.
Definition StatusConflict : Z := 409.
End http.

(** ** Models *)

(** [SessionCreateRequest]; the Go field [Type] is spelled [ReqType]. *)
Record SessionCreateRequest := {
  TargetUsername : string;
  ReqType : string
}.

(** [Session]; the Go field [Type] is spelled [SType], [CreatedAt] is the
    clock reading taken by [time.Now()]. *)
Record Session := {
  SessionID : string;
  Caller : string;
  Target : string;
  Status : string;
  SType : string;
  CreatedAt : Z
}.

(** [session.Status = v] on the pointer held in [sessions]. *)
Definition set_Status (s : Session) (v : string) : Session :=
  {| SessionID := SessionID s; Caller := Caller s; Target := Target s;
     Status := v; SType := SType s; CreatedAt := CreatedAt s |}.

(** The [data] object of a frame is never inspected by the server. *)
Definition Payload := string.

(** [WebSocketMessage] *)
Record WebSocketMessage := {
  Event : string;
  Data : Payload
}.

(** A [*websocket.Conn], identified by a handle. *)
Definition Conn := nat.

(** The JSON object passed to [conn.WriteJSON]. *)
Inductive Frame :=
| session_updated (data : Session)
| signal (data : Payload).

(** One [go func() { conn.WriteJSON(frame) }()]. *)
Definition Dispatch : Type := Conn * Frame.

(** ** In-memory storage *)

Record State := {
  sessions : gmap string Session;
  userSessions : gmap string string;
  wsConnections : gmap string Conn
}.

Definition initial : State :=
  {| sessions := ∅; userSessions := ∅; wsConnections := ∅ |}.

(** ** Requests and responses *)

(** What a handler reads from [r]: the method, the [X-Username] header and the
    outcome of [json.NewDecoder(r.Body).Decode(&req)] ([None] when it fails). *)
Record Request := {
  Method : string;
  XUsername : string;
  Body : option SessionCreateRequest
}.

(** What a handler writes to [w]: [http.Error(w, msg, code)] or the JSON
    encoding of a session. *)
Inductive Response :=
| HttpError (msg : string) (code : Z)
| Json (s : Session).

Record Result := {
  response : Response;
  after : State;
  sent : list Dispatch
}.

(** An early [http.Error(...); return]: nothing has been written to the maps. *)
Definition reject (st : State) (msg : string) (code : Z) : Result :=
  {| response := HttpError msg code; after := st; sent := [] |}.

(** [if conn, ok := wsConnections[user]; ok { go func() {...}() }] *)
Definition notify (conns : gmap string Conn) (user : string) (f : Frame)
  : list Dispatch :=
  match conns !! user with
  | Some conn => [(conn, f)]
  | None => []
  end.

(** ** REST handlers *)

(** [handleCreateSession]; [uuid] is the string returned by
    [uuid.New().String()] and [now] the value of [time.Now()]. *)
Definition handleCreateSession (st : State) (r : Request)
    (uuid : string) (now : Z) : Result :=
  if decide (Method r ≠ http.MethodPost) then
    reject st "Method not allowed" http.StatusMethodNotAllowed
  else
  let username := XUsername r in
  match Body r with
  | None => reject st "Invalid request" http.StatusBadRequest
  | Some req =>
    match userSessions st !! username with
    | Some _ => reject st "Already in active session" http.StatusBadRequest
    | None =>
      match userSessions st !! TargetUsername req with
      | Some _ => reject st "Target user is busy" http.StatusConflict
      | None =>
        if decide (TargetUsername req = username) then
          reject st "Cannot call yourself" http.StatusBadRequest
        else
          let session :=
            {| SessionID := uuid; Caller := username;
               Target := TargetUsername req; Status := "pending";
               SType := ReqType req; CreatedAt := now |} in
          {| response := Json session;
             after :=
               {| sessions := <[SessionID session := session]> (sessions st);
                  userSessions :=
                    <[TargetUsername req := SessionID session]>
                      (<[username := SessionID session]> (userSessions st));
                  wsConnections := wsConnections st |};
             sent := notify (wsConnections st) (TargetUsername req)
                       (session_updated session) |}
      end
    end
  end.

(** [handleGetSession] *)
Definition handleGetSession (st : State) (r : Request) : Result :=
  if decide (Method r ≠ http.MethodGet) then
    reject st "Method not allowed" http.StatusMethodNotAllowed
  else
  let username := XUsername r in
  match userSessions st !! username with
  | None => reject st "No active session" http.StatusNotFound
  | Some sessionID =>
    match sessions st !! sessionID with
    | None => reject st "Session not found" http.StatusNotFound
    | Some session =>
      {| response := Json session; after := st; sent := [] |}
    end
  end.

(** [handleAcceptSession] *)
Definition handleAcceptSession (st : State) (r : Request) : Result :=
  if decide (Method r ≠ http.MethodPost) then
    reject st "Method not allowed" http.StatusMethodNotAllowed
  else
  let username := XUsername r in
  match userSessions st !! username with
  | None => reject st "No pending session" http.StatusNotFound
  | Some sessionID =>
    match sessions st !! sessionID with
    | None => reject st "Session not found" http.StatusNotFound
    | Some session =>
      if decide (Target session ≠ username) then
        reject st "Only target can accept" http.StatusForbidden
      else if decide (Status session ≠ "pending") then
        reject st "Session not pending" http.StatusBadRequest
      else
        let session := set_Status session "active" in
        {| response := Json session;
           after :=
             {| sessions := <[sessionID := session]> (sessions st);
                userSessions := userSessions st;
                wsConnections := wsConnections st |};
           sent :=
             notify (wsConnections st) (Caller session)
               (session_updated session)
             ++ notify (wsConnections st) (Target session)
                  (session_updated session) |}
    end
  end.

(** [handleDeclineSession] *)
Definition handleDeclineSession (st : State) (r : Request) : Result :=
  if decide (Method r ≠ http.MethodPost) then
    reject st "Method not allowed" http.StatusMethodNotAllowed
  else
  let username := XUsername r in
  match userSessions st !! username with
  | None => reject st "No pending session" http.StatusNotFound
  | Some sessionID =>
    match sessions st !! sessionID with
    | None => reject st "Session not found" http.StatusNotFound
    | Some session =>
      if decide (Target session ≠ username) then
        reject st "Only target can decline" http.StatusForbidden
      else
        let session := set_Status session "declined" in
        let caller := Caller session in
        {| response := Json session;
           after :=
             {| sessions := delete sessionID (sessions st);
                userSessions :=
                  delete caller (delete username (userSessions st));
                wsConnections := wsConnections st |};
           sent :=
             notify (wsConnections st) caller (session_updated session) |}
    end
  end.

(** [handleCancelSession] *)
Definition handleCancelSession (st : State) (r : Request) : Result :=
  if decide (Method r ≠ http.MethodDelete) then
    reject st "Method not allowed" http.StatusMethodNotAllowed
  else
  let username := XUsername r in
  match userSessions st !! username with
  | None => reject st "No active session" http.StatusNotFound
  | Some sessionID =>
    match sessions st !! sessionID with
    | None => reject st "Session not found" http.StatusNotFound
    | Some session =>
      let session := set_Status session "cancelled" in
      let otherUser :=
        if decide (Caller session ≠ username) then Caller session
        else Target session in
      {| response := Json session;
         after :=
           {| sessions := delete sessionID (sessions st);
              userSessions :=
                delete otherUser (delete username (userSessions st));
              wsConnections := wsConnections st |};
         sent :=
           notify (wsConnections st) otherUser (session_updated session) |}
    end
  end.

(** ** WebSocket handler

    [handleWebSocket] takes the lock three times; each critical section is a
    step of its own, interleaved with the other handlers. *)

(** [wsConnections[username] = conn] after the upgrade. *)
Definition wsRegister (st : State) (username : string) (conn : Conn) : State :=
  {| sessions := sessions st;
     userSessions := userSessions st;
     wsConnections := <[username := conn]> (wsConnections st) |}.

(** One iteration of the read loop on a decoded [msg]; the maps are only
    read. *)
Definition wsMessage (st : State) (username : string)
    (msg : WebSocketMessage) : list Dispatch :=
  if decide (Event msg = "signal") then
    match userSessions st !! username with
    | None => []
    | Some sessionID =>
      match sessions st !! sessionID with
      | None => []
      | Some session =>
        if decide (Status session ≠ "active") then []
        else
          let otherUser :=
            if decide (Target session = username) then Caller session
            else Target session in
          notify (wsConnections st) otherUser (signal (Data msg))
      end
    end
  else [].

(** The cleanup that follows the read loop. *)
Definition wsCleanup (st : State) (username : string)
  : State * list Dispatch :=
  let conns := delete username (wsConnections st) in
  match userSessions st !! username with
  | None =>
    ({| sessions := sessions st; userSessions := userSessions st;
        wsConnections := conns |}, [])
  | Some sessionID =>
    match sessions st !! sessionID with
    | None =>
      ({| sessions := sessions st; userSessions := userSessions st;
          wsConnections := conns |}, [])
    | Some session =>
      let session := set_Status session "disconnected" in
      let otherUser :=
        if decide (Target session = username) then Caller session
        else Target session in
      ({| sessions := delete sessionID (sessions st);
          userSessions :=
            delete otherUser (delete username (userSessions st));
          wsConnections := conns |},
       notify conns otherUser (session_updated session))
    end
  end.

(** ** The operations of the lifecycle engine

    A core operation is the handler applied to a well-formed request of the
    verified identity. *)

Definition request (method username : string)
    (body : option SessionCreateRequest) : Request :=
  {| Method := method; XUsername := username; Body := body |}.

Definition Create (st : State) (initiator targetIdentity kind : string)
    (uuid : string) (now : Z) : Result :=
  handleCreateSession st
    (request http.MethodPost initiator
       (Some {| TargetUsername := targetIdentity; ReqType := kind |}))
    uuid now.

Definition Get (st : State) (identity : string) : Result :=
  handleGetSession st (request http.MethodGet identity None).

Definition Accept (st : State) (actor : string) : Result :=
  handleAcceptSession st (request http.MethodPost actor None).

Definition Decline (st : State) (actor : string) : Result :=
  handleDeclineSession st (request http.MethodPost actor None).

Definition Cancel (st : State) (actor : string) : Result :=
  handleCancelSession st (request http.MethodDelete actor None).

Definition Disconnect (st : State) (actor : string) : State * list Dispatch :=
  wsCleanup st actor.

Definition relay (st : State) (sender : string) (payload : Payload)
  : list Dispatch :=
  wsMessage st sender {| Event := "signal"; Data := payload |}.

(** ** Error taxonomy

    The handlers tell their failures apart by the text given to [http.Error];
    [core_error] names each text after the precondition it reports. *)

Inductive CoreError :=
| AlreadyInSession | TargetBusy | SelfTarget
| Forbidden | InvalidState | NoSession | SessionNotFound.

Definition core_error (msg : string) : option CoreError :=
  if decide (msg = "Already in active session") then Some AlreadyInSession
  else if decide (msg = "Target user is busy") then Some TargetBusy
  else if decide (msg = "Cannot call yourself") then Some SelfTarget
  else if decide (msg = "Only target can accept") then Some Forbidden
  else if decide (msg = "Only target can decline") then Some Forbidden
  else if decide (msg = "Session not pending") then Some InvalidState
  else if decide (msg = "No active session") then Some NoSession
  else if decide (msg = "No pending session") then Some NoSession
  else if decide (msg = "Session not found") then Some SessionNotFound
  else None.

(** The operation was refused with error [e]: an [http.Error] response whose
    text is that of [e], the three maps untouched and nothing dispatched. *)
Definition fails_with (res : Result) (st : State) (e : CoreError) : Prop :=
  ∃ msg code, res = reject st msg code ∧ core_error msg = Some e.

(** The operation answered with the JSON of [s]. *)
Definition returns (res : Result) (s : Session) : Prop :=
  response res = Json s.

(** ** Executions *)

Inductive Action :=
| DoCreate (r : Request) (uuid : string) (now : Z)
| DoGet (r : Request)
| DoAccept (r : Request)
| DoDecline (r : Request)
| DoCancel (r : Request)
| WsOpen (username : string) (conn : Conn)
| WsFrame (username : string) (msg : WebSocketMessage)
| WsClosed (username : string).

Definition step (st : State) (a : Action) : State :=
  match a with
  | DoCreate r uuid now => after (handleCreateSession st r uuid now)
  | DoGet r => after (handleGetSession st r)
  | DoAccept r => after (handleAcceptSession st r)
  | DoDecline r => after (handleDeclineSession st r)
  | DoCancel r => after (handleCancelSession st r)
  | WsOpen username conn => wsRegister st username conn
  | WsFrame username msg => st
  | WsClosed username => fst (wsCleanup st username)
  end.

(** [uuid.New()] does not return the key of a session that is stored. *)
Definition uuid_fresh (st : State) (a : Action) : Prop :=
  match a with
  | DoCreate _ uuid _ => sessions st !! uuid = None
  | _ => True
  end.

Inductive reachable : State → Prop :=
| reachable_initial : reachable initial
| reachable_step st a :
    reachable st → uuid_fresh st a → reachable (step st a).

(** ** Invariants of the session store *)

Definition terminal (status : string) : Prop :=
  status = "declined" ∨ status = "cancelled" ∨ status = "disconnected".

Definition index_resolves (st : State) : Prop :=
  ∀ u sid, userSessions st !! u = Some sid →
    ∃ s, sessions st !! sid = Some s ∧ (Caller s = u ∨ Target s = u).

Definition index_single_valued (st : State) : Prop :=
  ∀ u sid1 sid2,
    userSessions st !! u = Some sid1 → userSessions st !! u = Some sid2 →
    sid1 = sid2.

Definition parties_distinct (st : State) : Prop :=
  ∀ sid s, sessions st !! sid = Some s → Caller s ≠ Target s.

Definition no_terminal_stored (st : State) : Prop :=
  ∀ sid s, sessions st !! sid = Some s → ¬ terminal (Status s).

(** The inductive strengthening: a stored session is pending or active, is
    filed under its own id, and both its parties are indexed to it. *)
Record store_inv (st : State) : Prop := {
  inv_resolves : index_resolves st;
  inv_distinct : parties_distinct st;
  inv_status : ∀ sid s, sessions st !! sid = Some s →
    Status s = "pending" ∨ Status s = "active";
  inv_key : ∀ sid s, sessions st !! sid = Some s → SessionID s = sid;
  inv_indexed : ∀ sid s, sessions st !! sid = Some s →
    userSessions st !! Caller s = Some sid ∧
    userSessions st !! Target s = Some sid
}.

(** ** Removal, responses and status tables *)

(** The session has left the lookupable state: it is not in the store and
    neither of its parties is in the index. *)
Definition removed (st : State) (s : Session) : Prop :=
  sessions st !! SessionID s = None ∧
  userSessions st !! Caller s = None ∧
  userSessions st !! Target s = None.

(** The response of an HTTP action; the channel actions write none. *)
Definition http_response (st : State) (a : Action) : option Response :=
  match a with
  | DoCreate r uuid now => Some (response (handleCreateSession st r uuid now))
  | DoGet r => Some (response (handleGetSession st r))
  | DoAccept r => Some (response (handleAcceptSession st r))
  | DoDecline r => Some (response (handleDeclineSession st r))
  | DoCancel r => Some (response (handleCancelSession st r))
  | WsOpen _ _ | WsFrame _ _ | WsClosed _ => None
  end.

(** The mapping as the specification words it. *)
Definition spec_status (e : CoreError) : Z :=
  match e with
  | AlreadyInSession | TargetBusy => http.StatusConflict
  | SelfTarget | InvalidState => http.StatusBadRequest
  | Forbidden => http.StatusForbidden
  | NoSession | SessionNotFound => http.StatusNotFound
  end.

(** The mapping the handlers implement. *)
Definition boundary_status (e : CoreError) : Z :=
  match e with
  | TargetBusy => http.StatusConflict
  | AlreadyInSession | SelfTarget | InvalidState => http.StatusBadRequest
  | Forbidden => http.StatusForbidden
  | NoSession | SessionNotFound => http.StatusNotFound
  end.

(** ** Sample states *)

(** alice has called bob. *)
Definition st_pending : State :=
  after (Create initial "alice" "bob" "video" "s1" 0).

(** bob has accepted. *)
Definition st_active : State := after (Accept st_pending "bob").

(** Both have a channel open while the call rings, or is active. *)
Definition st_ringing : State :=
  wsRegister (wsRegister st_pending "alice" 1%nat) "bob" 2%nat.

Definition st_connected : State :=
  wsRegister (wsRegister st_active "alice" 1%nat) "bob" 2%nat.

(** An index entry whose session is missing; no execution produces it. *)
Definition st_stale : State :=
  {| sessions := ∅; userSessions := {["alice" := "s0"]};
     wsConnections := ∅ |}.

(** ** Actions: who acts, what is pushed *)

(** The identity on whose behalf an action runs: the [X-Username] of a
    request, the verified name of a channel. *)
Definition actor (a : Action) : string :=
  match a with
  | DoCreate r _ _ | DoGet r | DoAccept r | DoDecline r | DoCancel r =>
    XUsername r
  | WsOpen username _ | WsFrame username _ | WsClosed username => username
  end.

(** The frames an action hands to goroutines. *)
Definition dispatched (st : State) (a : Action) : list Dispatch :=
  match a with
  | DoCreate r uuid now => sent (handleCreateSession st r uuid now)
  | DoGet r => sent (handleGetSession st r)
  | DoAccept r => sent (handleAcceptSession st r)
  | DoDecline r => sent (handleDeclineSession st r)
  | DoCancel r => sent (handleCancelSession st r)
  | WsOpen _ _ => []
  | WsFrame username msg => wsMessage st username msg
  | WsClosed username => snd (wsCleanup st username)
  end.


(** ** Authentication middleware and routing

    [verifyToken] is the JWT check; it is a parameter of the functions that
    call it: [Some username] for [(username, nil)], [None] for an error. *)

(** What the router and the middleware read from [r] before a handler runs:
    the URL path, the [Authorization] header (empty when absent) and the rest
    of the request, whose [XUsername] is the header as the client sent it. *)
Record HttpRequest := {
  URLPath : string;
  Authorization : string;
  inner : Request
}.

(** [s[n:]] *)
Fixpoint slice_from (n : nat) (s : string) : string :=
  match n, s with
  | O, _ => s
  | S n, String _ s => slice_from n s
  | S _, EmptyString => EmptyString
  end.

(** [r.Header.Set("X-Username", username)] *)
Definition set_XUsername (r : Request) (username : string) : Request :=
  {| Method := Method r; XUsername := username; Body := Body r |}.

(** [authMiddleware(next)(w, r)] *)
Definition authMiddleware (verifyToken : string → option string)
    (next : State → Request → Result) (st : State) (r : HttpRequest)
  : Result :=
  let authHeader := Authorization r in
  if decide (authHeader = "" ∨ (String.length authHeader < 8)%nat) then
    reject st "Missing authorization header" http.StatusUnauthorized
  else
    let tokenString := slice_from 7 authHeader in
    match verifyToken tokenString with
    | None => reject st "Invalid token" http.StatusUnauthorized
    | Some username => next st (set_XUsername (inner r) username)
    end.

(** [handleSessionRoutes]; [uuid] and [now] are what [handleCreateSession]
    draws if it is the handler reached. *)
Definition handleSessionRoutes (verifyToken : string → option string)
    (st : State) (r : HttpRequest) (uuid : string) (now : Z) : Result :=
  let path := URLPath r in
  if decide (path = "/api/session") then
    if decide (Method (inner r) = http.MethodPost) then
      authMiddleware verifyToken
        (λ st r, handleCreateSession st r uuid now) st r
    else if decide (Method (inner r) = http.MethodGet) then
      authMiddleware verifyToken handleGetSession st r
    else if decide (Method (inner r) = http.MethodDelete) then
      authMiddleware verifyToken handleCancelSession st r
    else reject st "Method not allowed" http.StatusMethodNotAllowed
  else if decide (path = "/api/session/accept") then
    authMiddleware verifyToken handleAcceptSession st r
  else if decide (path = "/api/session/decline") then
    authMiddleware verifyToken handleDeclineSession st r
  else reject st "Not found" http.StatusNotFound.

(** A token checker for the examples: one token per user. *)
Definition sample_verify (tokenString : string) : option string :=
  if decide (tokenString = "tok-alice") then Some "alice"
  else if decide (tokenString = "tok-bob") then Some "bob"
  else None.

(** ** Predicates on states *)

(** As many index entries as two per stored session. *)
Definition balanced (st : State) : Prop :=
  size (userSessions st) = 2 * size (sessions st).

(** [st'] has the session store and the identity index of [st]. *)
Definition same_store (st st' : State) : Prop :=
  sessions st' = sessions st ∧ userSessions st' = userSessions st.

(** Frame [f], pushed by action [a], is meant for identity [u]: a party of
    the session a [session_updated] frame carries, or a party of the active
    session the sender of a relayed [signal] is indexed to. *)
Definition addressed (st : State) (a : Action) (u : string) (f : Frame)
  : Prop :=
  match f with
  | session_updated s => u = Caller s ∨ u = Target s
  | signal data =>
    ∃ msg sid s, a = WsFrame (actor a) msg ∧ data = Data msg ∧
      userSessions st !! actor a = Some sid ∧
      sessions st !! sid = Some s ∧ Status s = "active" ∧
      (u = Caller s ∨ u = Target s)
  end.

(** A second call, carol to dave, beside the one of alice and bob. *)
Definition st_two_calls : State :=
  after (Create st_active "carol" "dave" "audio" "s2" 5).

(** ** Preservation of the invariant *)

Lemma store_inv_initial : store_inv initial.
Proof.
  split; unfold index_resolves, parties_distinct; simpl; intros *;
    rewrite lookup_empty; discriminate.
Qed.

Lemma store_inv_conns st conns :
  store_inv st →
  store_inv {| sessions := sessions st; userSessions := userSessions st;
               wsConnections := conns |}.
Proof. intros [H1 H2 H3 H4 H5]. by split. Qed.

Lemma handleCreateSession_inv st r uuid now :
  store_inv st → sessions st !! uuid = None →
  store_inv (after (handleCreateSession st r uuid now)).
Proof.
  intros Hinv Hfresh. unfold handleCreateSession.
  case_decide; [done|].
  destruct (Body r) as [req|]; [|done].
  destruct (userSessions st !! XUsername r) eqn:Hu; [done|].
  destruct (userSessions st !! TargetUsername req) eqn:Ht; [done|].
  case_decide as Hself; [done|].
  destruct Hinv as [H1 H2 H3 H4 H5].
  split; unfold index_resolves, parties_distinct in *; simpl.
  - intros u sid Hl.
    destruct (decide (u = TargetUsername req)) as [->|Hn1].
    { rewrite lookup_insert_eq in Hl. simplify_eq.
      eexists. rewrite lookup_insert_eq. split; [done|]. by right. }
    rewrite lookup_insert_ne in Hl by done.
    destruct (decide (u = XUsername r)) as [->|Hn2].
    { rewrite lookup_insert_eq in Hl. simplify_eq.
      eexists. rewrite lookup_insert_eq. split; [done|]. by left. }
    rewrite lookup_insert_ne in Hl by done.
    destruct (H1 _ _ Hl) as (s & Hs & Hp).
    exists s. split; [|done].
    rewrite lookup_insert_ne; [done|]. intros ->. congruence.
  - intros sid s Hl.
    destruct (decide (sid = uuid)) as [->|Hn].
    + rewrite lookup_insert_eq in Hl. simplify_eq. simpl. congruence.
    + rewrite lookup_insert_ne in Hl by done. eauto.
  - intros sid s Hl.
    destruct (decide (sid = uuid)) as [->|Hn].
    + rewrite lookup_insert_eq in Hl. simplify_eq. by left.
    + rewrite lookup_insert_ne in Hl by done. eauto.
  - intros sid s Hl.
    destruct (decide (sid = uuid)) as [->|Hn].
    + rewrite lookup_insert_eq in Hl. by simplify_eq.
    + rewrite lookup_insert_ne in Hl by done. eauto.
  - intros sid s Hl.
    destruct (decide (sid = uuid)) as [->|Hn].
    + rewrite lookup_insert_eq in Hl. simplify_eq. simpl.
      rewrite lookup_insert_eq, lookup_insert_ne, lookup_insert_eq by done.
      done.
    + rewrite lookup_insert_ne in Hl by done.
      destruct (H5 _ _ Hl) as [Hc Hg].
      rewrite !lookup_insert_ne; [done|congruence..].
Qed.

Lemma handleAcceptSession_inv st r :
  store_inv st → store_inv (after (handleAcceptSession st r)).
Proof.
  intros Hinv. unfold handleAcceptSession.
  case_decide as Hm; [done|].
  destruct (userSessions st !! XUsername r) as [sessionID|] eqn:Hu; [|done].
  destruct (sessions st !! sessionID) as [session|] eqn:Hs; [|done].
  case_decide as Ht; [done|]. case_decide as Hp; [done|].
  destruct Hinv as [H1 H2 H3 H4 H5].
  split; unfold index_resolves, parties_distinct in *; simpl.
  - intros u sid Hl. destruct (H1 _ _ Hl) as (s & Hl' & Hpar).
    destruct (decide (sid = sessionID)) as [->|Hn].
    + exists (set_Status session "active").
      rewrite lookup_insert_eq. split; [done|].
      rewrite Hs in Hl'. by simplify_eq.
    + exists s. by rewrite lookup_insert_ne.
  - intros sid s Hl. destruct (decide (sid = sessionID)) as [->|Hn].
    + rewrite lookup_insert_eq in Hl. simplify_eq. simpl. eauto.
    + rewrite lookup_insert_ne in Hl by done. eauto.
  - intros sid s Hl. destruct (decide (sid = sessionID)) as [->|Hn].
    + rewrite lookup_insert_eq in Hl. simplify_eq. by right.
    + rewrite lookup_insert_ne in Hl by done. eauto.
  - intros sid s Hl. destruct (decide (sid = sessionID)) as [->|Hn].
    + rewrite lookup_insert_eq in Hl. simplify_eq. simpl. eauto.
    + rewrite lookup_insert_ne in Hl by done. eauto.
  - intros sid s Hl. destruct (decide (sid = sessionID)) as [->|Hn].
    + rewrite lookup_insert_eq in Hl. simplify_eq. simpl. eauto.
    + rewrite lookup_insert_ne in Hl by done. eauto.
Qed.

(** Dropping a stored session together with the index entries of its two
    parties, whichever of them acts. *)
Lemma store_inv_remove st sid s u o conns :
  store_inv st → sessions st !! sid = Some s →
  (u = Caller s ∧ o = Target s) ∨ (u = Target s ∧ o = Caller s) →
  store_inv {| sessions := delete sid (sessions st);
               userSessions := delete o (delete u (userSessions st));
               wsConnections := conns |}.
Proof.
  intros [H1 H2 H3 H4 H5] Hs Hparties.
  assert (userSessions st !! u = Some sid ∧ userSessions st !! o = Some sid)
    as [Hu Ho].
  { destruct (H5 _ _ Hs) as [Hc Ht].
    by destruct Hparties as [[-> ->]|[-> ->]]. }
  split; unfold index_resolves, parties_distinct in *; simpl.
  - intros v k Hl.
    apply lookup_delete_Some in Hl as [Hvo Hl].
    apply lookup_delete_Some in Hl as [Hvu Hl].
    destruct (H1 _ _ Hl) as (s' & Hs' & Hp).
    exists s'. split; [|done].
    rewrite lookup_delete_ne; [done|]. intros <-.
    rewrite Hs in Hs'. simplify_eq.
    destruct Hparties as [[? ?]|[? ?]], Hp; congruence.
  - intros k s' Hl. apply lookup_delete_Some in Hl as [_ Hl]. eauto.
  - intros k s' Hl. apply lookup_delete_Some in Hl as [_ Hl]. eauto.
  - intros k s' Hl. apply lookup_delete_Some in Hl as [_ Hl]. eauto.
  - intros k s' Hl. apply lookup_delete_Some in Hl as [Hk Hl].
    destruct (H5 _ _ Hl) as [Hc Ht].
    rewrite !lookup_delete_ne; [done|congruence..].
Qed.

(** In a well-formed store the acting party and the party the terminal
    handlers compute are the two parties of the session. *)
Lemma parties_of_actor st u sid s :
  store_inv st → userSessions st !! u = Some sid →
  sessions st !! sid = Some s →
  (u = Caller s ∧ u ≠ Target s) ∨ (u = Target s ∧ u ≠ Caller s).
Proof.
  intros [H1 H2 _ _ _] Hu Hs.
  destruct (H1 _ _ Hu) as (s' & Hs' & Hp). rewrite Hs in Hs'. simplify_eq.
  specialize (H2 _ _ Hs).
  destruct Hp as [<-|<-]; [left|right]; split; congruence.
Qed.

Lemma handleDeclineSession_inv st r :
  store_inv st → store_inv (after (handleDeclineSession st r)).
Proof.
  intros Hinv. unfold handleDeclineSession.
  case_decide; [done|].
  destruct (userSessions st !! XUsername r) as [sessionID|] eqn:Hu; [|done].
  destruct (sessions st !! sessionID) as [session|] eqn:Hs; [|done].
  case_decide as Ht; [done|]. simpl.
  eapply store_inv_remove; [done..|]. right. split; [|done].
  by destruct (decide (Target session = XUsername r)).
Qed.

Lemma handleCancelSession_inv st r :
  store_inv st → store_inv (after (handleCancelSession st r)).
Proof.
  intros Hinv. unfold handleCancelSession.
  case_decide; [done|].
  destruct (userSessions st !! XUsername r) as [sessionID|] eqn:Hu; [|done].
  destruct (sessions st !! sessionID) as [session|] eqn:Hs; [|done].
  simpl. eapply store_inv_remove; [done..|].
  destruct (parties_of_actor _ _ _ _ Hinv Hu Hs) as [[-> Hn]|[-> Hn]];
    case_decide; naive_solver.
Qed.

Lemma wsCleanup_inv st username :
  store_inv st → store_inv (fst (wsCleanup st username)).
Proof.
  intros Hinv. unfold wsCleanup.
  destruct (userSessions st !! username) as [sessionID|] eqn:Hu;
    [|by apply store_inv_conns].
  destruct (sessions st !! sessionID) as [session|] eqn:Hs;
    [|by apply store_inv_conns].
  simpl. eapply store_inv_remove; [done..|].
  destruct (parties_of_actor _ _ _ _ Hinv Hu Hs) as [[-> Hn]|[-> Hn]];
    case_decide; naive_solver.
Qed.

Lemma handleGetSession_after st r : after (handleGetSession st r) = st.
Proof. unfold handleGetSession. by repeat case_match. Qed.

Lemma step_inv st a : store_inv st → uuid_fresh st a → store_inv (step st a).
Proof.
  intros Hinv Hfresh. destruct a; simpl in *.
  - by apply handleCreateSession_inv.
  - by rewrite handleGetSession_after.
  - by apply handleAcceptSession_inv.
  - by apply handleDeclineSession_inv.
  - by apply handleCancelSession_inv.
  - by apply store_inv_conns.
  - done.
  - by apply wsCleanup_inv.
Qed.

Lemma reachable_store_inv st : reachable st → store_inv st.
Proof.
  induction 1 as [|st a _ IH Hfresh]; [apply store_inv_initial|].
  by apply step_inv.
Qed.

(** ** Sample executions are reachable *)

Lemma st_pending_reachable : reachable st_pending.
Proof.
  apply (reachable_step initial (DoCreate _ "s1" 0) reachable_initial).
  reflexivity.
Defined.

Lemma st_active_reachable : reachable st_active.
Proof.
  exact (reachable_step st_pending
           (DoAccept (request http.MethodPost "bob" None))
           st_pending_reachable I).
Defined.

(** ** Equations of the operations *)

Lemma fails_with_reject st msg code e :
  core_error msg = Some e → fails_with (reject st msg code) st e.
Proof. intros He. by exists msg, code. Qed.

Lemma fails_with_unchanged res st e :
  fails_with res st e → after res = st ∧ sent res = [].
Proof. by intros (msg & code & -> & _). Qed.

Lemma Get_unindexed st u :
  userSessions st !! u = None →
  Get st u = reject st "No active session" http.StatusNotFound.
Proof. intros Hu. unfold Get, handleGetSession. simpl. by rewrite Hu. Qed.

Lemma Get_indexed st u sid s :
  userSessions st !! u = Some sid → sessions st !! sid = Some s →
  Get st u = {| response := Json s; after := st; sent := [] |}.
Proof.
  intros Hu Hs. unfold Get, handleGetSession. simpl. by rewrite Hu, Hs.
Qed.

Lemma Get_NoSession st u :
  userSessions st !! u = None → fails_with (Get st u) st NoSession.
Proof. intros Hu. rewrite Get_unindexed by done. by apply fails_with_reject. Qed.

Lemma Create_fresh st initiator target kind uuid now :
  userSessions st !! initiator = None → userSessions st !! target = None →
  target ≠ initiator →
  Create st initiator target kind uuid now =
    let session :=
      {| SessionID := uuid; Caller := initiator; Target := target;
         Status := "pending"; SType := kind; CreatedAt := now |} in
    {| response := Json session;
       after :=
         {| sessions := <[uuid := session]> (sessions st);
            userSessions :=
              <[target := uuid]> (<[initiator := uuid]> (userSessions st));
            wsConnections := wsConnections st |};
       sent := notify (wsConnections st) target (session_updated session) |}.
Proof.
  intros Hi Ht Hne. unfold Create, handleCreateSession. simpl.
  rewrite Hi, Ht. by rewrite decide_False.
Qed.

(** ** Create *)

(** C2: for identities A ≠ B neither of which has an index entry,
    Create(A, B, kind) succeeds: the session it returns is pending, has caller
    A and target B, is stored under its id, and both A and B are indexed to
    that id; Get(A) and Get(B) in the state it leaves both return this same
    pending session. *)
Theorem create_success st A B kind uuid now :
  A ≠ B → userSessions st !! A = None → userSessions st !! B = None →
  ∃ s,
    returns (Create st A B kind uuid now) s ∧
    Status s = "pending" ∧ Caller s = A ∧ Target s = B ∧
    SType s = kind ∧ SessionID s = uuid ∧
    let st' := after (Create st A B kind uuid now) in
    sessions st' = <[SessionID s := s]> (sessions st) ∧
    sessions st' !! SessionID s = Some s ∧
    userSessions st' !! A = Some (SessionID s) ∧
    userSessions st' !! B = Some (SessionID s) ∧
    (∀ u, u ≠ A → u ≠ B → userSessions st' !! u = userSessions st !! u) ∧
    wsConnections st' = wsConnections st ∧
    returns (Get st' A) s ∧ returns (Get st' B) s.
Proof.
  intros Hne HA HB.
  rewrite Create_fresh by done. simpl.
  set (s := {| SessionID := uuid; Caller := A; Target := B;
               Status := "pending"; SType := kind; CreatedAt := now |}).
  set (st' := {| sessions := <[uuid := s]> (sessions st);
                 userSessions :=
                   <[B := uuid]> (<[A := uuid]> (userSessions st));
                 wsConnections := wsConnections st |}).
  assert (Hs : sessions st' !! uuid = Some s) by apply lookup_insert_eq.
  assert (HiA : userSessions st' !! A = Some uuid).
  { simpl. by rewrite lookup_insert_ne, lookup_insert_eq. }
  assert (HiB : userSessions st' !! B = Some uuid)
    by apply lookup_insert_eq.
  exists s. repeat split; try done.
  - intros u HuA HuB. simpl. by rewrite !lookup_insert_ne.
  - unfold returns. by rewrite (Get_indexed st' A uuid s).
  - unfold returns. by rewrite (Get_indexed st' B uuid s).
Qed.

Lemma create_success_witness :
  ∃ s, returns (Create initial "alice" "bob" "video" "s1" 0) s ∧
       Status s = "pending" ∧
       returns (Get st_pending "alice") s ∧ returns (Get st_pending "bob") s.
Proof.
  destruct (create_success initial "alice" "bob" "video" "s1" 0)
    as (s & Hr & Hp & _ & _ & _ & _ & _ & _ & _ & _ & _ & _ & HA & HB).
  - discriminate.
  - reflexivity.
  - reflexivity.
  - exists s. repeat split; assumption.
Defined.

(** C8: Create fails with AlreadyInSession whenever the initiator has an
    index entry, with TargetBusy whenever the target has one and the initiator
    has none, and with SelfTarget whenever initiator and target coincide and
    have no entry; in each case no session is created and the store, the index
    and the registry are exactly what they were. *)
Theorem create_failures st initiator target kind uuid now :
  let res := Create st initiator target kind uuid now in
  (is_Some (userSessions st !! initiator) →
     fails_with res st AlreadyInSession) ∧
  (userSessions st !! initiator = None →
   is_Some (userSessions st !! target) →
     fails_with res st TargetBusy) ∧
  (userSessions st !! initiator = None →
   userSessions st !! target = None →
   initiator = target →
     fails_with res st SelfTarget) ∧
  (∀ e, fails_with res st e →
     sessions (after res) = sessions st ∧
     userSessions (after res) = userSessions st ∧
     wsConnections (after res) = wsConnections st ∧
     sent res = []).
Proof.
  simpl. unfold Create, handleCreateSession. simpl.
  split; [|split; [|split]].
  - intros [sid ->]. by apply fails_with_reject.
  - intros -> [sid ->]. by apply fails_with_reject.
  - intros Hi Ht <-. rewrite Hi. rewrite decide_True by done.
    by apply fails_with_reject.
  - intros e (msg & code & -> & _). done.
Qed.

(** The two sequences of the specification: after Create(alice, bob), a
    Create(alice, carol) is refused with AlreadyInSession and a
    Create(carol, bob) with TargetBusy, and the state stays the same. *)
Lemma create_failures_witness :
  fails_with (Create st_pending "alice" "carol" "video" "s2" 1)
    st_pending AlreadyInSession ∧
  fails_with (Create st_pending "carol" "bob" "video" "s2" 1)
    st_pending TargetBusy ∧
  fails_with (Create initial "dave" "dave" "video" "s2" 1)
    initial SelfTarget.
Proof.
  split; [|split].
  - apply (create_failures st_pending "alice" "carol" "video" "s2" 1).
    by exists "s1".
  - apply (create_failures st_pending "carol" "bob" "video" "s2" 1).
    + reflexivity.
    + by exists "s1".
  - apply (create_failures initial "dave" "dave" "video" "s2" 1);
      reflexivity.
Defined.

(** C10: Create validates neither the target identity nor the kind: for any
    initiator and any target string without index entries and different from
    each other, and any kind string, Create succeeds, stores target and kind
    verbatim in the new session and gives the target an index entry; this
    includes the empty target string and the empty kind. *)
Theorem create_no_validation st initiator uuid now :
  userSessions st !! initiator = None →
  (∀ target kind,
     userSessions st !! target = None → target ≠ initiator →
     ∃ s, returns (Create st initiator target kind uuid now) s ∧
          Target s = target ∧ SType s = kind ∧ Caller s = initiator ∧
          sessions (after (Create st initiator target kind uuid now))
            !! uuid = Some s ∧
          userSessions (after (Create st initiator target kind uuid now))
            !! target = Some uuid ∧
          userSessions (after (Create st initiator target kind uuid now))
            !! initiator = Some uuid) ∧
  (userSessions st !! "" = None → initiator ≠ "" →
     ∃ s, returns (Create st initiator "" "" uuid now) s ∧
          Target s = "" ∧ SType s = "" ∧
          userSessions (after (Create st initiator "" "" uuid now))
            !! "" = Some uuid).
Proof.
  intros Hi.
  assert (Hgen : ∀ target kind,
     userSessions st !! target = None → target ≠ initiator →
     ∃ s, returns (Create st initiator target kind uuid now) s ∧
          Target s = target ∧ SType s = kind ∧ Caller s = initiator ∧
          sessions (after (Create st initiator target kind uuid now))
            !! uuid = Some s ∧
          userSessions (after (Create st initiator target kind uuid now))
            !! target = Some uuid ∧
          userSessions (after (Create st initiator target kind uuid now))
            !! initiator = Some uuid).
  { intros target kind Ht Hne. rewrite Create_fresh by done. simpl.
    eexists. split; [reflexivity|]. simpl.
    rewrite !lookup_insert_eq, lookup_insert_ne, lookup_insert_eq by done.
    done. }
  split; [exact Hgen|].
  intros Ht Hne.
  destruct (Hgen "" "" Ht) as (s & ? & ? & ? & ? & ? & ? & ?); [done|].
  by exists s.
Qed.

Lemma create_no_validation_witness :
  ∃ s, returns (Create initial "alice" "" "hologram" "s1" 0) s ∧
       Target s = "" ∧ SType s = "hologram" ∧
       userSessions (after (Create initial "alice" "" "hologram" "s1" 0))
         !! "" = Some "s1".
Proof.
  destruct (create_no_validation initial "alice" "s1" 0) as [Hgen _].
  - reflexivity.
  - destruct (Hgen "" "hologram") as (s & ? & ? & ? & ? & ? & ? & ?).
    + reflexivity.
    + discriminate.
    + exists s. repeat split; assumption.
Defined.

(** ** Accept *)

(** C3: Accept(actor) fails with NoSession when actor has no index entry,
    with SessionNotFound when the indexed id is not in the store, with
    Forbidden when actor is not the session's target, and with InvalidState
    when the status is not pending; each failure leaves store, index and
    registry as they were.  Otherwise Accept sets the status to active and
    returns the session, which stays in the store under the same id, the index
    being untouched -- so that in a well-formed store both parties are still
    indexed to it. *)
Theorem accept_behaviour st actor :
  let res := Accept st actor in
  (userSessions st !! actor = None → fails_with res st NoSession) ∧
  (∀ sid, userSessions st !! actor = Some sid → sessions st !! sid = None →
     fails_with res st SessionNotFound) ∧
  (∀ sid s, userSessions st !! actor = Some sid →
     sessions st !! sid = Some s → Target s ≠ actor →
     fails_with res st Forbidden) ∧
  (∀ sid s, userSessions st !! actor = Some sid →
     sessions st !! sid = Some s → Target s = actor →
     Status s ≠ "pending" →
     fails_with res st InvalidState) ∧
  (∀ e, fails_with res st e → after res = st ∧ sent res = []) ∧
  (∀ sid s, userSessions st !! actor = Some sid →
     sessions st !! sid = Some s → Target s = actor →
     Status s = "pending" →
     returns res (set_Status s "active") ∧
     Status (set_Status s "active") = "active" ∧
     sessions (after res) = <[sid := set_Status s "active"]> (sessions st) ∧
     sessions (after res) !! sid = Some (set_Status s "active") ∧
     userSessions (after res) = userSessions st ∧
     wsConnections (after res) = wsConnections st ∧
     sent res =
       (notify (wsConnections st) (Caller s)
          (session_updated (set_Status s "active")) ++
        notify (wsConnections st) (Target s)
          (session_updated (set_Status s "active")))%list ∧
     (store_inv st →
        userSessions (after res) !! Caller s = Some sid ∧
        userSessions (after res) !! Target s = Some sid)).
Proof.
  simpl. unfold Accept, handleAcceptSession. simpl.
  repeat apply conj.
  - intros ->. by apply fails_with_reject.
  - intros sid -> ->. by apply fails_with_reject.
  - intros sid s -> -> Ht. rewrite decide_True by done.
    by apply fails_with_reject.
  - intros sid s -> -> Ht Hp.
    rewrite decide_False by (intros Hn; by apply Hn).
    rewrite decide_True by done. by apply fails_with_reject.
  - intros e. apply fails_with_unchanged.
  - intros sid s Hu Hs Ht Hp. rewrite Hu, Hs.
    rewrite decide_False by (intros Hn; by apply Hn).
    rewrite decide_False by (intros Hn; by apply Hn).
    simpl. repeat apply conj; try done.
    + apply lookup_insert_eq.
    + intros Hinv. by apply (inv_indexed _ Hinv).
Qed.

Lemma accept_behaviour_witness :
  fails_with (Accept initial "bob") initial NoSession ∧
  fails_with (Accept st_pending "alice") st_pending Forbidden ∧
  fails_with (Accept st_active "bob") st_active InvalidState ∧
  returns (Accept st_pending "bob")
    {| SessionID := "s1"; Caller := "alice"; Target := "bob";
       Status := "active"; SType := "video"; CreatedAt := 0 |} ∧
  userSessions st_active !! "alice" = Some "s1" ∧
  userSessions st_active !! "bob" = Some "s1".
Proof.
  pose (s := {| SessionID := "s1"; Caller := "alice"; Target := "bob";
                Status := "pending"; SType := "video"; CreatedAt := 0 |}).
  destruct (accept_behaviour initial "bob") as (Hnone & _).
  destruct (accept_behaviour st_pending "alice") as (_ & _ & Hforb & _).
  destruct (accept_behaviour st_active "bob") as (_ & _ & _ & Hstate & _).
  destruct (accept_behaviour st_pending "bob") as (_ & _ & _ & _ & _ & Hok).
  destruct (Hok "s1" s) as (Hret & _ & _ & _ & _ & _ & _ & Hidx);
    [reflexivity..|].
  destruct (Hidx (reachable_store_inv _ st_pending_reachable)) as [Hc Ht].
  repeat apply conj.
  - by apply Hnone.
  - apply (Hforb "s1" s); [reflexivity|reflexivity|discriminate].
  - apply (Hstate "s1" (set_Status s "active"));
      [reflexivity|reflexivity|reflexivity|discriminate].
  - exact Hret.
  - exact Hc.
  - exact Ht.
Defined.

(** ** Decline *)

(** C5: Decline(actor) fails with NoSession when actor has no index entry,
    with SessionNotFound when the indexed session is absent and with
    Forbidden unless actor is the session's target.  It does not look at the
    status: a target may decline an active session as well as a pending one.
    On success the status becomes declined, the session leaves the store,
    both parties leave the index, and the declined snapshot is returned. *)
Theorem decline_behaviour st actor :
  let res := Decline st actor in
  (userSessions st !! actor = None → fails_with res st NoSession) ∧
  (∀ sid, userSessions st !! actor = Some sid → sessions st !! sid = None →
     fails_with res st SessionNotFound) ∧
  (∀ sid s, userSessions st !! actor = Some sid →
     sessions st !! sid = Some s → Target s ≠ actor →
     fails_with res st Forbidden) ∧
  (∀ sid s, userSessions st !! actor = Some sid →
     sessions st !! sid = Some s → Target s = actor →
     returns res (set_Status s "declined") ∧
     Status (set_Status s "declined") = "declined" ∧
     sessions (after res) = delete sid (sessions st) ∧
     sessions (after res) !! sid = None ∧
     userSessions (after res) =
       delete (Caller s) (delete (Target s) (userSessions st)) ∧
     userSessions (after res) !! Caller s = None ∧
     userSessions (after res) !! Target s = None ∧
     wsConnections (after res) = wsConnections st ∧
     sent res =
       notify (wsConnections st) (Caller s)
         (session_updated (set_Status s "declined"))).
Proof.
  simpl. unfold Decline, handleDeclineSession. simpl.
  repeat apply conj.
  - intros ->. by apply fails_with_reject.
  - intros sid -> ->. by apply fails_with_reject.
  - intros sid s -> -> Ht. rewrite decide_True by done.
    by apply fails_with_reject.
  - intros sid s Hu Hs Ht. rewrite Hu, Hs.
    rewrite decide_False by (intros Hn; by apply Hn).
    simpl. subst actor. repeat apply conj; try done.
    + apply lookup_delete_eq.
    + apply lookup_delete_eq.
    + destruct (decide (Caller s = Target s)) as [->|Hne].
      * apply lookup_delete_eq.
      * rewrite lookup_delete_ne by done. apply lookup_delete_eq.
Qed.

(** A target declining a call that is already active. *)
Lemma decline_behaviour_witness :
  Status (set_Status
           {| SessionID := "s1"; Caller := "alice"; Target := "bob";
              Status := "active"; SType := "video"; CreatedAt := 0 |}
           "declined") = "declined" ∧
  returns (Decline st_active "bob")
    {| SessionID := "s1"; Caller := "alice"; Target := "bob";
       Status := "declined"; SType := "video"; CreatedAt := 0 |} ∧
  sessions (after (Decline st_active "bob")) !! "s1" = None ∧
  fails_with (Decline st_pending "alice") st_pending Forbidden.
Proof.
  pose (s := {| SessionID := "s1"; Caller := "alice"; Target := "bob";
                Status := "active"; SType := "video"; CreatedAt := 0 |}).
  destruct (decline_behaviour st_active "bob") as (_ & _ & _ & Hok).
  destruct (decline_behaviour st_pending "alice") as (_ & _ & Hforb & _).
  destruct (Hok "s1" s) as (Hret & Hst & _ & Hgone & _); [reflexivity..|].
  repeat apply conj.
  - exact Hst.
  - exact Hret.
  - exact Hgone.
  - apply (Hforb "s1" (set_Status s "pending"));
      [reflexivity|reflexivity|discriminate].
Defined.

(** ** Cancel and Disconnect *)

(** The index after the entries of [u] and [o] are dropped has no entry for
    either party, whenever [u] and [o] are the two parties in some order. *)
Lemma parties_unindexed (idx : gmap string string) u o c t :
  (u = c ∧ o = t) ∨ (u = t ∧ o = c) →
  delete o (delete u idx) !! c = None ∧ delete o (delete u idx) !! t = None.
Proof.
  intros [[-> ->]|[-> ->]]; split;
    rewrite ?lookup_delete_eq; try done;
    rewrite lookup_delete; case_decide; try done; apply lookup_delete_eq.
Qed.

(** C4: Cancel has no Forbidden check.  In a well-formed store, for every
    stored session S of which actor is the caller or the target -- pending or
    active alike -- Cancel(actor) succeeds: it returns the snapshot of S with
    status cancelled, notifies the party of S that is not actor, deletes S
    from the store and removes the index entries of both parties, so that Get
    then fails with NoSession for either of them.  With no index entry for
    actor, Cancel fails with NoSession and changes nothing. *)
Theorem cancel_behaviour st actor :
  let res := Cancel st actor in
  (∀ sid s, store_inv st → sessions st !! sid = Some s →
     Caller s = actor ∨ Target s = actor →
     let other := if decide (Caller s = actor) then Target s else Caller s in
     returns res (set_Status s "cancelled") ∧
     Status (set_Status s "cancelled") = "cancelled" ∧
     other ≠ actor ∧
     sent res =
       notify (wsConnections st) other
         (session_updated (set_Status s "cancelled")) ∧
     sessions (after res) = delete sid (sessions st) ∧
     sessions (after res) !! sid = None ∧
     userSessions (after res) !! Caller s = None ∧
     userSessions (after res) !! Target s = None ∧
     wsConnections (after res) = wsConnections st ∧
     fails_with (Get (after res) (Caller s)) (after res) NoSession ∧
     fails_with (Get (after res) (Target s)) (after res) NoSession) ∧
  (userSessions st !! actor = None →
     fails_with res st NoSession ∧ after res = st ∧ sent res = []).
Proof.
  simpl. split.
  - intros sid s Hinv Hs Hparty.
    pose proof (inv_distinct _ Hinv _ _ Hs) as Hdist.
    destruct (inv_indexed _ Hinv _ _ Hs) as [Hc Ht].
    assert (Hu : userSessions st !! actor = Some sid)
      by (by destruct Hparty as [<-|<-]).
    unfold Cancel, handleCancelSession. simpl. rewrite Hu, Hs. simpl.
    assert (Hother :
      (if decide (Caller s ≠ actor) then Caller s else Target s) =
      (if decide (Caller s = actor) then Target s else Caller s)).
    { destruct (decide (Caller s = actor)) as [He|Hn].
      - rewrite decide_False; [done|]. intros Hn. by apply Hn.
      - by rewrite decide_True. }
    rewrite Hother.
    set (other := if decide (Caller s = actor) then Target s else Caller s).
    assert (Hpair : (actor = Caller s ∧ other = Target s) ∨
                    (actor = Target s ∧ other = Caller s)).
    { subst other. destruct (decide (Caller s = actor)) as [He|Hn].
      - by left.
      - right. split; [|done]. by destruct Hparty. }
    destruct (parties_unindexed (userSessions st) _ _ _ _ Hpair)
      as [Hgc Hgt].
    repeat apply conj; try done.
    + destruct Hpair as [[-> ->]|[-> ->]]; congruence.
    + apply lookup_delete_eq.
    + by apply Get_NoSession.
    + by apply Get_NoSession.
  - intros Hu. unfold Cancel, handleCancelSession. simpl. rewrite Hu.
    split; [by apply fails_with_reject|done].
Qed.

(** Either party of an active call, and the caller of a pending one, can
    cancel. *)
Lemma cancel_behaviour_witness :
  returns (Cancel st_active "bob")
    {| SessionID := "s1"; Caller := "alice"; Target := "bob";
       Status := "cancelled"; SType := "video"; CreatedAt := 0 |} ∧
  returns (Cancel st_pending "alice")
    {| SessionID := "s1"; Caller := "alice"; Target := "bob";
       Status := "cancelled"; SType := "video"; CreatedAt := 0 |} ∧
  fails_with (Get (after (Cancel st_active "bob")) "alice")
    (after (Cancel st_active "bob")) NoSession ∧
  fails_with (Cancel initial "alice") initial NoSession.
Proof.
  pose (s := {| SessionID := "s1"; Caller := "alice"; Target := "bob";
                Status := "pending"; SType := "video"; CreatedAt := 0 |}).
  destruct (cancel_behaviour st_active "bob") as [Hact _].
  destruct (cancel_behaviour st_pending "alice") as [Hpen _].
  destruct (cancel_behaviour initial "alice") as [_ Hnone].
  destruct (Hact "s1" (set_Status s "active"))
    as (Hr1 & _ & _ & _ & _ & _ & _ & _ & _ & Hg1 & _);
    [apply reachable_store_inv, st_active_reachable|reflexivity|by right|].
  destruct (Hpen "s1" s) as (Hr2 & _);
    [apply reachable_store_inv, st_pending_reachable|reflexivity|by left|].
  repeat apply conj.
  - exact Hr1.
  - exact Hr2.
  - exact Hg1.
  - by apply Hnone.
Defined.

(** C7: Disconnect(actor) always removes actor's channel from the registry.
    In a well-formed store, when actor's index entry resolves to a stored
    session, that session is marked disconnected (the snapshot pushed to the
    other party carries this status), deleted from the store, and both
    parties leave the index, so that Get then fails with NoSession for either
    of them; when actor has no index entry, or the entry resolves to nothing,
    store and index are left as they were.  The result of Disconnect carries
    a state and the pushed frames only: no response is produced. *)
Theorem disconnect_behaviour st actor :
  let st' := fst (Disconnect st actor) in
  let pushed := snd (Disconnect st actor) in
  wsConnections st' = delete actor (wsConnections st) ∧
  wsConnections st' !! actor = None ∧
  (∀ sid s, store_inv st → userSessions st !! actor = Some sid →
     sessions st !! sid = Some s →
     let other := if decide (Target s = actor) then Caller s else Target s in
     other ≠ actor ∧
     pushed =
       notify (wsConnections st') other
         (session_updated (set_Status s "disconnected")) ∧
     Status (set_Status s "disconnected") = "disconnected" ∧
     sessions st' = delete sid (sessions st) ∧
     sessions st' !! sid = None ∧
     userSessions st' !! Caller s = None ∧
     userSessions st' !! Target s = None ∧
     fails_with (Get st' (Caller s)) st' NoSession ∧
     fails_with (Get st' (Target s)) st' NoSession) ∧
  (userSessions st !! actor = None →
     sessions st' = sessions st ∧ userSessions st' = userSessions st ∧
     pushed = []) ∧
  (∀ sid, userSessions st !! actor = Some sid → sessions st !! sid = None →
     sessions st' = sessions st ∧ userSessions st' = userSessions st ∧
     pushed = []).
Proof.
  simpl. unfold Disconnect, wsCleanup.
  repeat apply conj.
  - by repeat case_match.
  - repeat case_match; apply lookup_delete_eq.
  - intros sid s Hinv Hu Hs. rewrite Hu, Hs. simpl.
    set (other := if decide (Target s = actor) then Caller s else Target s).
    assert (Hpair : (actor = Caller s ∧ other = Target s) ∨
                    (actor = Target s ∧ other = Caller s)).
    { subst other.
      destruct (parties_of_actor _ _ _ _ Hinv Hu Hs) as [[He Hn]|[He Hn]].
      - left. split; [done|]. rewrite decide_False; [done|]. congruence.
      - right. split; [done|]. by rewrite decide_True. }
    destruct (parties_unindexed (userSessions st) _ _ _ _ Hpair)
      as [Hgc Hgt].
    pose proof (inv_distinct _ Hinv _ _ Hs) as Hdist.
    repeat apply conj; try done.
    + destruct Hpair as [[-> ->]|[-> ->]]; congruence.
    + apply lookup_delete_eq.
    + by apply Get_NoSession.
    + by apply Get_NoSession.
  - by intros ->.
  - by intros sid -> ->.
Qed.

Lemma st_connected_reachable : reachable st_connected.
Proof.
  exact (reachable_step _ (WsOpen "bob" 2%nat)
           (reachable_step _ (WsOpen "alice" 1%nat) st_active_reachable I)
           I).
Defined.

(** The caller drops out of an active call: the target is told once, and
    neither party has a session afterwards. *)
Lemma disconnect_behaviour_witness :
  wsConnections (fst (Disconnect st_connected "alice")) !! "alice" = None ∧
  snd (Disconnect st_connected "alice") =
    [(2%nat, session_updated
        {| SessionID := "s1"; Caller := "alice"; Target := "bob";
           Status := "disconnected"; SType := "video"; CreatedAt := 0 |})] ∧
  fails_with (Get (fst (Disconnect st_connected "alice")) "alice")
    (fst (Disconnect st_connected "alice")) NoSession ∧
  fails_with (Get (fst (Disconnect st_connected "alice")) "bob")
    (fst (Disconnect st_connected "alice")) NoSession.
Proof.
  pose (s := {| SessionID := "s1"; Caller := "alice"; Target := "bob";
                Status := "active"; SType := "video"; CreatedAt := 0 |}).
  destruct (disconnect_behaviour st_connected "alice")
    as (_ & Hconn & Hsess & _).
  destruct (Hsess "s1" s) as (_ & Hpush & _ & _ & _ & _ & _ & Hga & Hgb);
    [apply reachable_store_inv, st_connected_reachable|reflexivity..|].
  repeat apply conj.
  - exact Hconn.
  - exact Hpush.
  - exact Hga.
  - exact Hgb.
Defined.

(** ** Signal relay *)

(** C6: relay(sender, payload) hands nothing to any channel when the sender
    has no index entry, when the indexed session is not in the store, or when
    its status is not active.  In a well-formed store with the session
    active, the payload goes unchanged, as a signal frame, to the channel of
    the counterpart -- the target if sender is the caller, else the caller --
    and to no other channel; with no channel registered for the counterpart
    nothing is sent. *)
Theorem relay_behaviour st sender payload :
  (userSessions st !! sender = None → relay st sender payload = []) ∧
  (∀ sid, userSessions st !! sender = Some sid → sessions st !! sid = None →
     relay st sender payload = []) ∧
  (∀ sid s, userSessions st !! sender = Some sid →
     sessions st !! sid = Some s → Status s ≠ "active" →
     relay st sender payload = []) ∧
  (∀ sid s, store_inv st → userSessions st !! sender = Some sid →
     sessions st !! sid = Some s → Status s = "active" →
     let counterpart :=
       if decide (sender = Caller s) then Target s else Caller s in
     counterpart ≠ sender ∧
     relay st sender payload =
       match wsConnections st !! counterpart with
       | Some conn => [(conn, signal payload)]
       | None => []
       end ∧
     (∀ conn f, (conn, f) ∈ relay st sender payload →
        f = signal payload ∧ wsConnections st !! counterpart = Some conn)).
Proof.
  unfold relay, wsMessage. simpl.
  repeat apply conj.
  - by intros ->.
  - by intros sid -> ->.
  - intros sid s -> -> Hst. by rewrite decide_True.
  - intros sid s Hinv Hu Hs Hst. rewrite Hu, Hs.
    rewrite (decide_False (P := Status s ≠ "active"))
      by (intros Hn; by apply Hn).
    assert (Hother :
      (if decide (Target s = sender) then Caller s else Target s) =
      (if decide (sender = Caller s) then Target s else Caller s)).
    { destruct (parties_of_actor _ _ _ _ Hinv Hu Hs) as [[He Hn]|[He Hn]].
      - rewrite (decide_False (P := Target s = sender)) by congruence.
        by rewrite decide_True.
      - rewrite (decide_True (P := Target s = sender)) by congruence.
        by rewrite decide_False. }
    rewrite Hother. unfold notify.
    repeat apply conj.
    + destruct (parties_of_actor _ _ _ _ Hinv Hu Hs) as [[He Hn]|[He Hn]];
        case_decide; congruence.
    + done.
    + intros conn f Hin.
      destruct (wsConnections st !! _) as [c|].
      * apply list_elem_of_singleton in Hin. by simplify_eq.
      * by apply not_elem_of_nil in Hin.
Qed.

Lemma st_ringing_reachable : reachable st_ringing.
Proof.
  exact (reachable_step _ (WsOpen "bob" 2%nat)
           (reachable_step _ (WsOpen "alice" 1%nat) st_pending_reachable I)
           I).
Defined.

(** A signal sent while the call is still ringing is dropped; once the call
    is active it reaches the other side only. *)
Lemma relay_behaviour_witness :
  relay st_ringing "alice" "offer" = [] ∧
  relay st_connected "alice" "offer" = [(2%nat, signal "offer")] ∧
  relay st_connected "bob" "answer" = [(1%nat, signal "answer")] ∧
  relay st_connected "carol" "offer" = [].
Proof.
  pose (s := {| SessionID := "s1"; Caller := "alice"; Target := "bob";
                Status := "pending"; SType := "video"; CreatedAt := 0 |}).
  pose proof (reachable_store_inv _ st_connected_reachable) as Hinv.
  destruct (relay_behaviour st_ringing "alice" "offer")
    as (_ & _ & Hpend & _).
  destruct (relay_behaviour st_connected "alice" "offer")
    as (_ & _ & _ & Hcaller).
  destruct (relay_behaviour st_connected "bob" "answer")
    as (_ & _ & _ & Htarget).
  destruct (relay_behaviour st_connected "carol" "offer") as (Hnone & _).
  repeat apply conj.
  - apply (Hpend "s1" s); [reflexivity|reflexivity|discriminate].
  - apply (Hcaller "s1" (set_Status s "active") Hinv); reflexivity.
  - apply (Htarget "s1" (set_Status s "active") Hinv); reflexivity.
  - by apply Hnone.
Defined.

(** ** The store invariants along executions *)

Lemma handleDeclineSession_Json st r s :
  returns (handleDeclineSession st r) s →
  ∃ sid s0, userSessions st !! XUsername r = Some sid ∧
    sessions st !! sid = Some s0 ∧ Target s0 = XUsername r ∧
    s = set_Status s0 "declined" ∧
    sessions (after (handleDeclineSession st r)) = delete sid (sessions st) ∧
    userSessions (after (handleDeclineSession st r)) =
      delete (Caller s0) (delete (XUsername r) (userSessions st)).
Proof.
  unfold returns, handleDeclineSession.
  case_decide as Hm; [done|].
  destruct (userSessions st !! XUsername r) as [sid|] eqn:Hu; [|done].
  destruct (sessions st !! sid) as [s0|] eqn:Hs; [|done].
  case_decide as Ht; [done|]. simpl. intros [= <-].
  exists sid, s0. repeat apply conj; try done.
Qed.

Lemma handleCancelSession_Json st r s :
  returns (handleCancelSession st r) s →
  ∃ sid s0, userSessions st !! XUsername r = Some sid ∧
    sessions st !! sid = Some s0 ∧
    s = set_Status s0 "cancelled" ∧
    sessions (after (handleCancelSession st r)) = delete sid (sessions st) ∧
    userSessions (after (handleCancelSession st r)) =
      delete (if decide (Caller s0 ≠ XUsername r) then Caller s0
              else Target s0)
        (delete (XUsername r) (userSessions st)).
Proof.
  unfold returns, handleCancelSession.
  case_decide as Hm; [done|].
  destruct (userSessions st !! XUsername r) as [sid|] eqn:Hu; [|done].
  destruct (sessions st !! sid) as [s0|] eqn:Hs; [|done].
  simpl. intros [= <-]. by exists sid, s0.
Qed.

Lemma removed_after (st st' : State) sid s0 v u o :
  store_inv st → sessions st !! sid = Some s0 →
  (u = Caller s0 ∧ o = Target s0) ∨ (u = Target s0 ∧ o = Caller s0) →
  sessions st' = delete sid (sessions st) →
  userSessions st' = delete o (delete u (userSessions st)) →
  removed st' (set_Status s0 v).
Proof.
  intros Hinv Hs Hpair Hsess Hidx. unfold removed. simpl.
  rewrite Hsess, Hidx, (inv_key _ Hinv _ _ Hs).
  split; [apply lookup_delete_eq|].
  by apply parties_unindexed.
Qed.

(** C1: in every state reached from the empty server by any sequence of
    handler runs -- Create, Get, Accept, Decline, Cancel, channel
    registrations, relayed frames and Disconnect, the ids drawn by Create
    being new to the store -- every index entry resolves to a stored session
    of which the indexed identity is the caller or the target; no identity is
    indexed to two session ids; caller and target of every stored session
    differ; and no stored session has a terminal status.  A terminal
    transition taken from such a state removes, in that same step, the session
    from the store and both its parties from the index. *)
Theorem store_invariants st :
  reachable st →
  index_resolves st ∧
  index_single_valued st ∧
  parties_distinct st ∧
  no_terminal_stored st ∧
  (∀ r s, returns (handleDeclineSession st r) s →
     Status s = "declined" ∧ removed (after (handleDeclineSession st r)) s) ∧
  (∀ r s, returns (handleCancelSession st r) s →
     Status s = "cancelled" ∧ removed (after (handleCancelSession st r)) s) ∧
  (∀ actor sid s, userSessions st !! actor = Some sid →
     sessions st !! sid = Some s →
     removed (fst (Disconnect st actor)) (set_Status s "disconnected")).
Proof.
  intros Hreach. pose proof (reachable_store_inv _ Hreach) as Hinv.
  repeat apply conj.
  - apply (inv_resolves _ Hinv).
  - intros u sid1 sid2 H1 H2. congruence.
  - apply (inv_distinct _ Hinv).
  - intros sid s Hs Hterm.
    destruct (inv_status _ Hinv _ _ Hs) as [Hp|Hp];
      rewrite Hp in Hterm; by destruct Hterm as [?|[?|?]].
  - intros r s Hret.
    destruct (handleDeclineSession_Json _ _ _ Hret)
      as (sid & s0 & Hu & Hs & Ht & -> & Hsess & Hidx).
    split; [done|].
    eapply removed_after; [done|done| |done|done]. by right.
  - intros r s Hret.
    destruct (handleCancelSession_Json _ _ _ Hret)
      as (sid & s0 & Hu & Hs & -> & Hsess & Hidx).
    split; [done|].
    eapply removed_after; [done|done| |done|done].
    destruct (parties_of_actor _ _ _ _ Hinv Hu Hs) as [[He Hn]|[He Hn]].
    + left. split; [done|]. rewrite decide_False; [done|].
      intros Hc. by apply Hc.
    + right. split; [done|]. rewrite decide_True; [done|]. congruence.
  - intros actor sid s Hu Hs. unfold Disconnect, wsCleanup.
    rewrite Hu, Hs. simpl.
    eapply removed_after; [done|done| |done|done].
    destruct (parties_of_actor _ _ _ _ Hinv Hu Hs) as [[He Hn]|[He Hn]].
    + left. split; [done|]. rewrite decide_False; [done|]. congruence.
    + right. split; [done|]. by rewrite decide_True.
Qed.

Lemma store_invariants_witness :
  index_resolves st_active ∧ parties_distinct st_active ∧
  no_terminal_stored st_active ∧
  removed (after (Cancel st_active "alice"))
    {| SessionID := "s1"; Caller := "alice"; Target := "bob";
       Status := "cancelled"; SType := "video"; CreatedAt := 0 |}.
Proof.
  destruct (store_invariants st_active st_active_reachable)
    as (Hres & _ & Hdist & Hterm & _ & Hcancel & _).
  repeat apply conj; try assumption;
    apply (Hcancel (request http.MethodDelete "alice" None)); reflexivity.
Defined.

(** ** Status codes of the failures *)

(** C9, as stated, fails: a second Create by a party that is already in a
    session is answered with status 400, not 409. *)
Lemma error_status_counterexample :
  ¬ (∀ st a msg code e,
       http_response st a = Some (HttpError msg code) →
       core_error msg = Some e → code = spec_status e).
Proof.
  intros Hclaim.
  specialize (Hclaim st_pending
    (DoCreate (request http.MethodPost "alice"
                 (Some {| TargetUsername := "carol"; ReqType := "video" |}))
       "s2" 1)
    "Already in active session" 400%Z AlreadyInSession eq_refl eq_refl).
  discriminate Hclaim.
Qed.

(** C9, amended: whenever a handler refuses an operation with one of the core
    errors, the status is 409 for TargetBusy, 400 for AlreadyInSession,
    SelfTarget and InvalidState, 403 for Forbidden, and 404 for NoSession and
    SessionNotFound; and each of the seven errors is produced, with that
    status, by some request. *)
Theorem error_status_mapping :
  (∀ st a msg code e,
     http_response st a = Some (HttpError msg code) →
     core_error msg = Some e → code = boundary_status e) ∧
  (∀ e, ∃ st a msg,
     http_response st a = Some (HttpError msg (boundary_status e)) ∧
     core_error msg = Some e).
Proof.
  split.
  - intros st a msg code e Hresp Herr.
    destruct a as [r uuid now|r|r|r|r|u c|u m|u]; simpl in Hresp;
      try discriminate; injection Hresp as Hresp; revert Hresp;
      unfold handleCreateSession, handleGetSession, handleAcceptSession,
        handleDeclineSession, handleCancelSession, reject;
      repeat (case_decide || case_match); simpl;
      intros [= <- <-]; vm_compute in Herr; by simplify_eq.
  - pose (post u := request http.MethodPost u None).
    pose (call u t :=
      request http.MethodPost u
        (Some {| TargetUsername := t; ReqType := "video" |})).
    intros [].
    + by exists st_pending, (DoCreate (call "alice" "carol") "s2" 1),
        "Already in active session".
    + by exists st_pending, (DoCreate (call "carol" "bob") "s2" 1),
        "Target user is busy".
    + by exists initial, (DoCreate (call "dave" "dave") "s2" 1),
        "Cannot call yourself".
    + by exists st_pending, (DoAccept (post "alice")),
        "Only target can accept".
    + by exists st_active, (DoAccept (post "bob")), "Session not pending".
    + by exists initial, (DoAccept (post "bob")), "No pending session".
    + by exists st_stale, (DoAccept (post "alice")), "Session not found".
Qed.

Lemma error_status_mapping_witness :
  400%Z = boundary_status AlreadyInSession ∧
  409%Z = boundary_status TargetBusy.
Proof.
  destruct error_status_mapping as [Hmap _].
  split.
  - apply (Hmap st_pending
      (DoCreate (request http.MethodPost "alice"
                   (Some {| TargetUsername := "carol"; ReqType := "video" |}))
         "s2" 1) "Already in active session"); reflexivity.
  - apply (Hmap st_pending
      (DoCreate (request http.MethodPost "carol"
                   (Some {| TargetUsername := "bob"; ReqType := "video" |}))
         "s2" 1) "Target user is busy"); reflexivity.
Defined.

(** * Further properties of the handlers *)

(** ** Sessions of other parties *)

(** X1: an action leaves alone every session its actor is not indexed to: in
    a well-formed store, a party [u] of a stored session [s] keeps its index
    entry and [s] stays stored, unchanged, through any action whose actor is
    not indexed to [s]. *)
Theorem step_other_session st a u sid s :
  store_inv st → uuid_fresh st a →
  userSessions st !! u = Some sid → sessions st !! sid = Some s →
  userSessions st !! actor a ≠ Some sid →
  userSessions (step st a) !! u = Some sid ∧
  sessions (step st a) !! sid = Some s.
Proof.
  intros Hinv Hfresh Hu Hs Hact.
  assert (Hterm : ∀ sid' s' o,
    userSessions st !! actor a = Some sid' → sessions st !! sid' = Some s' →
    o = Caller s' ∨ o = Target s' →
    delete o (delete (actor a) (userSessions st)) !! u = Some sid ∧
    delete sid' (sessions st) !! sid = Some s).
  { intros sid' s' o Ha Hs' Ho.
    assert (sid' ≠ sid) by congruence.
    destruct (inv_indexed _ Hinv _ _ Hs') as [Hc Ht].
    assert (userSessions st !! o = Some sid') by (by destruct Ho as [->| ->]).
    rewrite !lookup_delete_ne by congruence. done. }
  destruct a as [r uuid now|r|r|r|r|v c|v m|v]; simpl in *.
  - unfold handleCreateSession.
    case_decide; [done|]. destruct (Body r) as [req|]; [|done].
    destruct (userSessions st !! XUsername r) eqn:Hi; [done|].
    destruct (userSessions st !! TargetUsername req) eqn:Ht; [done|].
    case_decide; [done|]. simpl.
    rewrite !lookup_insert_ne by congruence. done.
  - by rewrite handleGetSession_after.
  - unfold handleAcceptSession.
    case_decide; [done|].
    destruct (userSessions st !! XUsername r) as [sid'|] eqn:Hi; [|done].
    destruct (sessions st !! sid') as [s'|] eqn:Hs'; [|done].
    repeat (case_decide; [done|]). simpl.
    rewrite lookup_insert_ne by congruence. done.
  - unfold handleDeclineSession.
    case_decide; [done|].
    destruct (userSessions st !! XUsername r) as [sid'|] eqn:Hi; [|done].
    destruct (sessions st !! sid') as [s'|] eqn:Hs'; [|done].
    case_decide; [done|]. simpl. apply (Hterm sid' s'); auto.
  - unfold handleCancelSession.
    case_decide; [done|].
    destruct (userSessions st !! XUsername r) as [sid'|] eqn:Hi; [|done].
    destruct (sessions st !! sid') as [s'|] eqn:Hs'; [|done].
    simpl. apply (Hterm sid' s'); [done..|]. case_decide; auto.
  - done.
  - done.
  - unfold wsCleanup.
    destruct (userSessions st !! v) as [sid'|] eqn:Hi; [|done].
    destruct (sessions st !! sid') as [s'|] eqn:Hs'; [|done].
    simpl. apply (Hterm sid' s'); [done..|]. case_decide; auto.
Qed.

Lemma st_two_calls_reachable : reachable st_two_calls.
Proof.
  exact (reachable_step st_active
           (DoCreate
              (request http.MethodPost "carol"
                 (Some {| TargetUsername := "dave"; ReqType := "audio" |}))
              "s2" 5)
           st_active_reachable eq_refl).
Defined.

(** carol hanging up on dave does not touch the call of alice and bob. *)
Lemma step_other_session_witness :
  userSessions
    (step st_two_calls (DoCancel (request http.MethodDelete "carol" None)))
    !! "bob" = Some "s1" ∧
  sessions
    (step st_two_calls (DoCancel (request http.MethodDelete "carol" None)))
    !! "s1" =
  Some {| SessionID := "s1"; Caller := "alice"; Target := "bob";
          Status := "active"; SType := "video"; CreatedAt := 0 |}.
Proof.
  apply (step_other_session st_two_calls
           (DoCancel (request http.MethodDelete "carol" None)) "bob" "s1").
  - apply reachable_store_inv, st_two_calls_reachable.
  - exact I.
  - reflexivity.
  - reflexivity.
  - discriminate.
Defined.

(** X2: a session that is stored before and after an action is the same
    record, or the same record with its status moved from pending to active
    by an Accept of its target: id, caller, target, type and creation time
    never change, and a status never moves back. *)
Theorem step_session_fields st a sid s s' :
  uuid_fresh st a →
  sessions st !! sid = Some s → sessions (step st a) !! sid = Some s' →
  s' = s ∨
  (s' = set_Status s "active" ∧ Status s = "pending" ∧
   (∃ r, a = DoAccept r) ∧ actor a = Target s ∧
   userSessions st !! actor a = Some sid).
Proof.
  intros Hfresh Hs Hs'.
  destruct a as [r uuid now|r|r|r|r|v c|v m|v]; simpl in *.
  - revert Hs'. unfold handleCreateSession.
    repeat (case_decide || case_match); simpl; try (left; congruence).
    rewrite lookup_insert_ne by congruence. left; congruence.
  - rewrite handleGetSession_after in Hs'. left; congruence.
  - revert Hs'. unfold handleAcceptSession.
    case_decide; [left; simpl in *; congruence|].
    destruct (userSessions st !! XUsername r) as [sid0|] eqn:Hi;
      [|left; simpl in *; congruence].
    destruct (sessions st !! sid0) as [s0|] eqn:Hs0;
      [|left; simpl in *; congruence].
    case_decide as Ht; [left; simpl in *; congruence|].
    case_decide as Hp; [left; simpl in *; congruence|]. simpl.
    destruct (decide (sid0 = sid)) as [->|Hne].
    + rewrite lookup_insert_eq. intros [= <-]. right.
      assert (s0 = s) as -> by congruence.
      repeat apply conj; eauto.
    + rewrite lookup_insert_ne by done. left; congruence.
  - revert Hs'. unfold handleDeclineSession.
    repeat (case_decide || case_match); simpl; try (left; congruence).
    intros [_ Hl]%lookup_delete_Some. left; congruence.
  - revert Hs'. unfold handleCancelSession.
    repeat (case_decide || case_match); simpl; try (left; congruence);
      intros [_ Hl]%lookup_delete_Some; left; congruence.
  - left; congruence.
  - left; congruence.
  - revert Hs'. unfold wsCleanup.
    repeat (case_decide || case_match); simpl; try (left; congruence);
      intros [_ Hl]%lookup_delete_Some; left; congruence.
Qed.

Lemma step_session_fields_witness :
  {| SessionID := "s1"; Caller := "alice"; Target := "bob";
     Status := "active"; SType := "video"; CreatedAt := 0 |} =
  set_Status
    {| SessionID := "s1"; Caller := "alice"; Target := "bob";
       Status := "pending"; SType := "video"; CreatedAt := 0 |} "active".
Proof.
  destruct (step_session_fields st_pending
              (DoAccept (request http.MethodPost "bob" None)) "s1"
              {| SessionID := "s1"; Caller := "alice"; Target := "bob";
                 Status := "pending"; SType := "video"; CreatedAt := 0 |}
              {| SessionID := "s1"; Caller := "alice"; Target := "bob";
                 Status := "active"; SType := "video"; CreatedAt := 0 |}
              I eq_refl eq_refl) as [Heq|[Heq _]].
  - discriminate Heq.
  - exact Heq.
Defined.

(** ** Two index entries per session *)

Lemma balanced_remove st sid s u o conns :
  store_inv st → balanced st → sessions st !! sid = Some s →
  (u = Caller s ∧ o = Target s) ∨ (u = Target s ∧ o = Caller s) →
  balanced {| sessions := delete sid (sessions st);
              userSessions := delete o (delete u (userSessions st));
              wsConnections := conns |}.
Proof.
  intros Hinv Hbal Hs Hpair. unfold balanced in *. simpl.
  pose proof (inv_distinct _ Hinv _ _ Hs) as Hdist.
  destruct (inv_indexed _ Hinv _ _ Hs) as [Hc Ht].
  assert (Hu : is_Some (userSessions st !! u))
    by (destruct Hpair as [[-> _]|[-> _]]; eauto).
  assert (Ho : is_Some (delete u (userSessions st) !! o)).
  { rewrite lookup_delete_ne
      by (destruct Hpair as [[-> ->]|[-> ->]]; congruence).
    destruct Hpair as [[_ ->]|[_ ->]]; eauto. }
  rewrite (map_size_delete_Some o) by done.
  rewrite (map_size_delete_Some u) by done.
  rewrite (map_size_delete_Some sid) by eauto.
  assert (size (sessions st) ≠ 0) by (eapply map_size_ne_0_lookup_2; eauto).
  lia.
Qed.

(** X3: in every reachable state the index has exactly twice as many entries
    as the store has sessions. *)
Theorem reachable_balanced st : reachable st → balanced st.
Proof.
  induction 1 as [|st a Hreach IH Hfresh]; [done|].
  pose proof (reachable_store_inv _ Hreach) as Hinv.
  destruct a as [r uuid now|r|r|r|r|v c|v m|v]; simpl in *.
  - unfold handleCreateSession.
    case_decide; [done|]. destruct (Body r) as [req|]; [|done].
    destruct (userSessions st !! XUsername r) eqn:Hi; [done|].
    destruct (userSessions st !! TargetUsername req) eqn:Ht; [done|].
    case_decide; [done|]. unfold balanced in *. simpl.
    rewrite map_size_insert_None by (by rewrite lookup_insert_ne).
    rewrite !map_size_insert_None by done. lia.
  - by rewrite handleGetSession_after.
  - unfold handleAcceptSession.
    case_decide; [done|].
    destruct (userSessions st !! XUsername r) as [sid|] eqn:Hi; [|done].
    destruct (sessions st !! sid) as [s|] eqn:Hs; [|done].
    repeat (case_decide; [done|]). unfold balanced in *. simpl.
    by rewrite map_size_insert_Some by eauto.
  - unfold handleDeclineSession.
    case_decide; [done|].
    destruct (userSessions st !! XUsername r) as [sid|] eqn:Hi; [|done].
    destruct (sessions st !! sid) as [s|] eqn:Hs; [|done].
    case_decide as Ht; [done|]. simpl.
    eapply balanced_remove; [done..|]. right. split; [|done].
    by destruct (decide (Target s = XUsername r)).
  - unfold handleCancelSession.
    case_decide; [done|].
    destruct (userSessions st !! XUsername r) as [sid|] eqn:Hi; [|done].
    destruct (sessions st !! sid) as [s|] eqn:Hs; [|done].
    simpl. eapply balanced_remove; [done..|].
    destruct (parties_of_actor _ _ _ _ Hinv Hi Hs) as [[He Hn]|[He Hn]].
    + left. split; [done|]. rewrite decide_False; [done|].
      intros Hc. by apply Hc.
    + right. split; [done|]. rewrite decide_True; [done|]. congruence.
  - done.
  - done.
  - unfold wsCleanup.
    destruct (userSessions st !! v) as [sid|] eqn:Hi; [|done].
    destruct (sessions st !! sid) as [s|] eqn:Hs; [|done].
    simpl. eapply balanced_remove; [done..|].
    destruct (parties_of_actor _ _ _ _ Hinv Hi Hs) as [[He Hn]|[He Hn]].
    + left. split; [done|]. rewrite decide_False; [done|]. congruence.
    + right. split; [done|]. by rewrite decide_True.
Qed.

Lemma reachable_balanced_witness :
  size (userSessions st_two_calls) = 2 * size (sessions st_two_calls).
Proof. exact (reachable_balanced st_two_calls st_two_calls_reachable). Defined.

(** ** A call that is set up and ended *)

Lemma index_restore (idx : gmap string string) A B uuid u o :
  idx !! A = None → idx !! B = None →
  (u = A ∧ o = B) ∨ (u = B ∧ o = A) →
  delete o (delete u (<[B := uuid]> (<[A := uuid]> idx))) = idx.
Proof.
  intros HA HB Hpair. apply map_eq. intros k.
  rewrite !lookup_delete, !lookup_insert.
  destruct Hpair as [[-> ->]|[-> ->]]; repeat case_decide; congruence.
Qed.

(** What the three terminal paths do in a state where session [s] of parties
    [A] and [B] has just been laid over store and index. *)
Lemma end_restores st st1 A B uuid s :
  A ≠ B → userSessions st !! A = None → userSessions st !! B = None →
  sessions st !! uuid = None →
  Caller s = A → Target s = B →
  sessions st1 = <[uuid := s]> (sessions st) →
  userSessions st1 = <[B := uuid]> (<[A := uuid]> (userSessions st)) →
  same_store st (after (Cancel st1 A)) ∧
  same_store st (after (Cancel st1 B)) ∧
  same_store st (after (Decline st1 B)) ∧
  same_store st (fst (Disconnect st1 A)) ∧
  same_store st (fst (Disconnect st1 B)).
Proof.
  intros Hne HA HB Hfresh Hc Ht Hsess Hidx.
  assert (HiA : userSessions st1 !! A = Some uuid)
    by (by rewrite Hidx, lookup_insert_ne, lookup_insert_eq).
  assert (HiB : userSessions st1 !! B = Some uuid)
    by (by rewrite Hidx, lookup_insert_eq).
  assert (Hs : sessions st1 !! uuid = Some s)
    by (by rewrite Hsess, lookup_insert_eq).
  assert (Hdel : delete uuid (sessions st1) = sessions st)
    by (by rewrite Hsess, delete_insert_eq, delete_id).
  unfold same_store, Cancel, Decline, Disconnect, handleCancelSession,
    handleDeclineSession, wsCleanup. simpl.
  rewrite HiA, HiB, Hs. simpl. rewrite Hc, Ht.
  rewrite (decide_False (P := A ≠ A)) by (intros Hn; by apply Hn).
  rewrite (decide_True (P := A ≠ B)) by done.
  rewrite (decide_False (P := B ≠ B)) by (intros Hn; by apply Hn).
  rewrite (decide_False (P := B = A)) by done.
  rewrite (decide_True (P := B = B)) by done.
  simpl. rewrite Hdel, Hidx.
  repeat apply conj; try done; apply index_restore; auto.
Qed.

(** X4: setting up a call and ending it leaves no trace in store and index.
    For A ≠ B without index entries and an id that is new to the store, after
    Create(A, B) -- and also after a following Accept(B) -- each of
    Cancel(A), Cancel(B), Decline(B), Disconnect(A) and Disconnect(B) gives
    back exactly the session store and the identity index from before the
    Create. *)
Theorem create_then_end_restores st A B kind uuid now :
  A ≠ B → userSessions st !! A = None → userSessions st !! B = None →
  sessions st !! uuid = None →
  let ringing := after (Create st A B kind uuid now) in
  let talking := after (Accept ringing B) in
  (same_store st (after (Cancel ringing A)) ∧
   same_store st (after (Cancel ringing B)) ∧
   same_store st (after (Decline ringing B)) ∧
   same_store st (fst (Disconnect ringing A)) ∧
   same_store st (fst (Disconnect ringing B))) ∧
  (same_store st (after (Cancel talking A)) ∧
   same_store st (after (Cancel talking B)) ∧
   same_store st (after (Decline talking B)) ∧
   same_store st (fst (Disconnect talking A)) ∧
   same_store st (fst (Disconnect talking B))).
Proof.
  intros Hne HA HB Hfresh. simpl.
  rewrite Create_fresh by done. simpl.
  set (s := {| SessionID := uuid; Caller := A; Target := B;
               Status := "pending"; SType := kind; CreatedAt := now |}).
  set (st1 := {| sessions := <[uuid := s]> (sessions st);
                 userSessions :=
                   <[B := uuid]> (<[A := uuid]> (userSessions st));
                 wsConnections := wsConnections st |}).
  split.
  - by apply (end_restores st st1 A B uuid s).
  - apply (end_restores st _ A B uuid (set_Status s "active"));
      try done;
      unfold Accept, handleAcceptSession; simpl;
      rewrite lookup_insert_eq; simpl; rewrite lookup_insert_eq; simpl;
      rewrite !decide_False by (intros Hn; by apply Hn); simpl;
      [by rewrite insert_insert_eq|done].
Qed.

Lemma create_then_end_restores_witness :
  same_store st_active
    (after (Cancel (after (Accept st_two_calls "dave")) "carol")) ∧
  same_store st_active (fst (Disconnect st_two_calls "dave")).
Proof.
  destruct (create_then_end_restores st_active "carol" "dave" "audio" "s2" 5)
    as [(_ & _ & _ & _ & Hd) (Hc & _)];
    [discriminate|reflexivity|reflexivity|reflexivity|].
  split; [exact Hc|exact Hd].
Defined.

(** ** After an Accept *)

(** X5: once the target has accepted a pending session of a well-formed
    store, Get returns the session with status active to the caller and to the
    target alike; a second Accept is refused, with InvalidState for the
    target and with Forbidden for the caller; and the session can no longer
    change through Accept (the state is left as it is). *)
Theorem accept_then st actor sid s :
  store_inv st →
  userSessions st !! actor = Some sid → sessions st !! sid = Some s →
  Target s = actor → Status s = "pending" →
  let st' := after (Accept st actor) in
  returns (Get st' (Caller s)) (set_Status s "active") ∧
  returns (Get st' (Target s)) (set_Status s "active") ∧
  fails_with (Accept st' (Target s)) st' InvalidState ∧
  fails_with (Accept st' (Caller s)) st' Forbidden.
Proof.
  intros Hinv Hu Hs Ht Hp. simpl.
  destruct (inv_indexed _ Hinv _ _ Hs) as [Hic Hit].
  pose proof (inv_distinct _ Hinv _ _ Hs) as Hdist.
  assert (Hst : after (Accept st actor) =
    {| sessions := <[sid := set_Status s "active"]> (sessions st);
       userSessions := userSessions st;
       wsConnections := wsConnections st |}).
  { unfold Accept, handleAcceptSession. simpl. rewrite Hu, Hs.
    by rewrite !decide_False by (intros Hn; by apply Hn). }
  rewrite Hst. clear Hst.
  set (st' := {| sessions := <[sid := set_Status s "active"]> (sessions st);
                 userSessions := userSessions st;
                 wsConnections := wsConnections st |}).
  assert (Hs' : sessions st' !! sid = Some (set_Status s "active"))
    by apply lookup_insert_eq.
  repeat apply conj.
  - unfold returns. by rewrite (Get_indexed st' _ sid (set_Status s "active")).
  - unfold returns. by rewrite (Get_indexed st' _ sid (set_Status s "active")).
  - unfold Accept, handleAcceptSession. simpl.
    rewrite Hit, lookup_insert_eq. simpl.
    rewrite decide_False by (intros Hn; by apply Hn).
    by apply fails_with_reject.
  - unfold Accept, handleAcceptSession. simpl.
    rewrite Hic, lookup_insert_eq. simpl.
    rewrite decide_True by congruence.
    by apply fails_with_reject.
Qed.

Lemma accept_then_witness :
  returns (Get st_active "alice")
    {| SessionID := "s1"; Caller := "alice"; Target := "bob";
       Status := "active"; SType := "video"; CreatedAt := 0 |} ∧
  fails_with (Accept st_active "bob") st_active InvalidState.
Proof.
  destruct (accept_then st_pending "bob" "s1"
              {| SessionID := "s1"; Caller := "alice"; Target := "bob";
                 Status := "pending"; SType := "video"; CreatedAt := 0 |})
    as (Hg & _ & Ha & _);
    [apply reachable_store_inv, st_pending_reachable|reflexivity..|].
  split; [exact Hg|exact Ha].
Defined.

(** ** After a terminal transition *)

Lemma removed_then st s kind uuid now :
  removed st s → Caller s ≠ Target s →
  (∃ s2, returns (Create st (Caller s) (Target s) kind uuid now) s2 ∧
         Status s2 = "pending" ∧ Caller s2 = Caller s ∧
         Target s2 = Target s) ∧
  (∃ s2, returns (Create st (Target s) (Caller s) kind uuid now) s2 ∧
         Status s2 = "pending" ∧ Caller s2 = Target s ∧
         Target s2 = Caller s) ∧
  (∀ p, p = Caller s ∨ p = Target s →
     fails_with (Accept st p) st NoSession ∧
     fails_with (Decline st p) st NoSession ∧
     fails_with (Cancel st p) st NoSession ∧
     fst (Disconnect st p) =
       {| sessions := sessions st; userSessions := userSessions st;
          wsConnections := delete p (wsConnections st) |}).
Proof.
  intros (_ & Hc & Ht) Hne. repeat apply conj.
  - rewrite Create_fresh by done. simpl. by eexists.
  - rewrite Create_fresh by done. simpl. by eexists.
  - intros p Hp.
    assert (Hn : userSessions st !! p = None) by (by destruct Hp as [->| ->]).
    unfold Accept, Decline, Cancel, Disconnect, handleAcceptSession,
      handleDeclineSession, handleCancelSession, wsCleanup.
    simpl. rewrite Hn.
    repeat apply conj; try done; by apply fails_with_reject.
Qed.

(** X6: a terminal transition frees both parties.  In a well-formed store,
    after the session that [actor] is indexed to has been ended by
    Cancel(actor), by Decline(actor) when actor is its target, or by
    Disconnect(actor), either party can at once call the other again -- the
    Create succeeds with a pending session -- while Accept, Decline and
    Cancel by either of them fail with NoSession and a further Disconnect
    only unregisters the channel. *)
Theorem ended_then st actor sid s st' kind uuid now :
  store_inv st →
  userSessions st !! actor = Some sid → sessions st !! sid = Some s →
  st' = after (Cancel st actor) ∨
  (actor = Target s ∧ st' = after (Decline st actor)) ∨
  st' = fst (Disconnect st actor) →
  (∃ s2, returns (Create st' (Caller s) (Target s) kind uuid now) s2 ∧
         Status s2 = "pending" ∧ Caller s2 = Caller s ∧
         Target s2 = Target s) ∧
  (∃ s2, returns (Create st' (Target s) (Caller s) kind uuid now) s2 ∧
         Status s2 = "pending" ∧ Caller s2 = Target s ∧
         Target s2 = Caller s) ∧
  (∀ p, p = Caller s ∨ p = Target s →
     fails_with (Accept st' p) st' NoSession ∧
     fails_with (Decline st' p) st' NoSession ∧
     fails_with (Cancel st' p) st' NoSession ∧
     fst (Disconnect st' p) =
       {| sessions := sessions st'; userSessions := userSessions st';
          wsConnections := delete p (wsConnections st') |}).
Proof.
  intros Hinv Hu Hs Hend.
  pose proof (inv_distinct _ Hinv _ _ Hs) as Hdist.
  apply (removed_then st' (set_Status s "ended")); [|done].
  destruct (parties_of_actor _ _ _ _ Hinv Hu Hs) as [[He Hn]|[He Hn]];
    destruct Hend as [->|[[Ht ->]| ->]];
    unfold Cancel, Decline, Disconnect, handleCancelSession,
      handleDeclineSession, wsCleanup; simpl; rewrite Hu, Hs; simpl;
    repeat case_decide; try congruence; simpl;
    (eapply removed_after; [done|done| |done|done]); auto.
Qed.

(** After bob declines, alice can ring again and bob can ring back. *)
Lemma ended_then_witness :
  (∃ s2, returns
           (Create (after (Decline st_pending "bob")) "alice" "bob"
              "audio" "s9" 7) s2 ∧
         Status s2 = "pending") ∧
  fails_with (Cancel (after (Decline st_pending "bob")) "alice")
    (after (Decline st_pending "bob")) NoSession.
Proof.
  destruct (ended_then st_pending "bob" "s1"
              {| SessionID := "s1"; Caller := "alice"; Target := "bob";
                 Status := "pending"; SType := "video"; CreatedAt := 0 |}
              (after (Decline st_pending "bob")) "audio" "s9" 7)
    as ((s2 & Hr & Hp & _) & _ & Hfail).
  - apply reachable_store_inv, st_pending_reachable.
  - reflexivity.
  - reflexivity.
  - right; left. split; reflexivity.
  - split; [by exists s2|].
    destruct (Hfail "alice") as (_ & _ & Hc & _); [by left|exact Hc].
Defined.

(** ** Who is written to *)

Lemma notify_elem conns user f c g :
  (c, g) ∈ notify conns user f → conns !! user = Some c ∧ g = f.
Proof.
  unfold notify. destruct (conns !! user) as [c'|].
  - intros Hin%list_elem_of_singleton. by simplify_eq.
  - by intros Hin%not_elem_of_nil.
Qed.

Lemma notify_length conns user f :
  (List.length (notify conns user f) ≤ 1)%nat.
Proof. unfold notify. destruct (conns !! user); simpl; lia. Qed.

(** X7: whatever the state and the action, a frame is only ever handed to a
    channel that is registered for a party of the session concerned: a
    [session_updated] frame goes to the channel of the caller or of the
    target of the session it carries, a [signal] frame to the channel of the
    caller or target of the active session the sender is indexed to, with the
    data of the frame received.  No action hands out more than two frames. *)
Theorem dispatched_to_parties st a c f :
  (c, f) ∈ dispatched st a →
  (List.length (dispatched st a) ≤ 2)%nat ∧
  ∃ u, wsConnections st !! u = Some c ∧ addressed st a u f.
Proof.
  assert (Hlen : ∀ m k g, (List.length (notify m k g) ≤ 2)%nat).
  { intros m k g. pose proof (notify_length m k g). lia. }
  destruct a as [r uuid now|r|r|r|r|v conn|v m|v]; simpl.
  - unfold handleCreateSession.
    repeat (case_decide || case_match); simpl;
      try (by intros ?%not_elem_of_nil).
    intros [Hc ->]%notify_elem. split; [apply Hlen|].
    eexists. split; [done|]. by right.
  - unfold handleGetSession.
    repeat (case_decide || case_match); simpl;
      by intros ?%not_elem_of_nil.
  - unfold handleAcceptSession.
    repeat (case_decide || case_match); simpl;
      try (by intros ?%not_elem_of_nil).
    intros Hin. split.
    + rewrite length_app.
      match goal with
      | |- (List.length (notify ?m1 ?k1 ?g1) +
            List.length (notify ?m2 ?k2 ?g2) ≤ 2)%nat =>
        pose proof (notify_length m1 k1 g1);
        pose proof (notify_length m2 k2 g2); lia
      end.
    + apply elem_of_app in Hin as [[Hc ->]%notify_elem|[Hc ->]%notify_elem];
        eexists; (split; [done|]); simpl; auto.
  - unfold handleDeclineSession.
    repeat (case_decide || case_match); simpl;
      try (by intros ?%not_elem_of_nil).
    intros [Hc ->]%notify_elem. split; [apply Hlen|].
    eexists. split; [done|]. by left.
  - unfold handleCancelSession.
    repeat (case_decide || case_match); simpl;
      try (by intros ?%not_elem_of_nil);
      intros [Hc ->]%notify_elem; (split; [apply Hlen|]);
      eexists; (split; [done|]); simpl; auto.
  - by intros ?%not_elem_of_nil.
  - unfold wsMessage.
    repeat (case_decide || case_match); simpl;
      try (by intros ?%not_elem_of_nil);
      intros [Hc ->]%notify_elem; (split; [apply Hlen|]);
      eexists; (split; [done|]); exists m; eexists _, _;
      repeat apply conj; eauto.
  - unfold wsCleanup.
    repeat (case_decide || case_match); simpl;
      try (by intros ?%not_elem_of_nil);
      intros [[_ Hc]%lookup_delete_Some ->]%notify_elem;
      (split; [apply Hlen|]);
      eexists; (split; [done|]); simpl; auto.
Qed.

Lemma dispatched_to_parties_witness :
  ∃ u, wsConnections st_connected !! u = Some 2%nat ∧
       (u = "alice" ∨ u = "bob").
Proof.
  destruct (dispatched_to_parties st_connected
              (DoCancel (request http.MethodDelete "alice" None)) 2%nat
              (session_updated
                 {| SessionID := "s1"; Caller := "alice"; Target := "bob";
                    Status := "cancelled"; SType := "video";
                    CreatedAt := 0 |}))
    as (_ & u & Hu & Hp).
  - apply list_elem_of_singleton. reflexivity.
  - exists u. split; [exact Hu|exact Hp].
Defined.

(** X8: the connection registry is written by the channel handler alone: a
    REST handler leaves it as it is for every request, a relayed frame does
    too, opening a channel sets the entry of that name (replacing an earlier
    one) and the cleanup removes the entry of that name; every other name
    keeps its channel in all cases. *)
Theorem step_registry st a :
  wsConnections (step st a) =
    match a with
    | WsOpen username conn => <[username := conn]> (wsConnections st)
    | WsClosed username => delete username (wsConnections st)
    | _ => wsConnections st
    end ∧
  (∀ u, u ≠ actor a →
     wsConnections (step st a) !! u = wsConnections st !! u).
Proof.
  assert (Heq : wsConnections (step st a) =
    match a with
    | WsOpen username conn => <[username := conn]> (wsConnections st)
    | WsClosed username => delete username (wsConnections st)
    | _ => wsConnections st
    end).
  { destruct a as [r uuid now|r|r|r|r|v conn|v m|v]; simpl;
      unfold handleCreateSession, handleGetSession, handleAcceptSession,
        handleDeclineSession, handleCancelSession, wsCleanup;
      by repeat (case_decide || case_match). }
  split; [done|]. intros u Hu. rewrite Heq.
  destruct a; simpl in *; try done.
  - by rewrite lookup_insert_ne.
  - by rewrite lookup_delete_ne.
Qed.

(** ** The read loop *)



(** ** Authentication middleware *)

Lemma slice_from_app prefix t :
  slice_from (String.length prefix) (prefix +:+ t) = t.
Proof. induction prefix as [|ch prefix IH]; [by destruct t|exact IH]. Qed.

Lemma length_app_string prefix t :
  String.length (prefix +:+ t) = (String.length prefix + String.length t)%nat.
Proof. induction prefix as [|ch prefix IH]; simpl; [done|]. by rewrite IH. Qed.

(** X10: the middleware never looks at the first seven bytes of the
    [Authorization] header.  For a header made of any seven bytes followed by
    [t]: an empty [t] is refused with 401 "Missing authorization header"
    without the token check being consulted, a [t] the check refuses gives
    401 "Invalid token", and otherwise the handler runs on the request with
    [X-Username] overwritten by the verified name, whatever the client had
    put there.  In the two refusals the state is unchanged. *)
Theorem authMiddleware_scheme_unchecked verifyToken next st path prefix t r :
  String.length prefix = 7%nat →
  authMiddleware verifyToken next st
    {| URLPath := path; Authorization := prefix +:+ t; inner := r |} =
  if decide (t = "") then
    reject st "Missing authorization header" http.StatusUnauthorized
  else
    match verifyToken t with
    | None => reject st "Invalid token" http.StatusUnauthorized
    | Some username =>
      next st {| Method := Method r; XUsername := username; Body := Body r |}
    end.
Proof.
  intros Hlen. unfold authMiddleware. cbn [Authorization inner].
  assert (Hslice : slice_from 7 (prefix +:+ t) = t)
    by (rewrite <- Hlen; apply slice_from_app).
  rewrite Hslice.
  pose proof (length_app_string prefix t) as Happ. rewrite Hlen in Happ.
  destruct (decide (t = "")) as [->|Hne].
  - rewrite decide_True; [done|]. right. rewrite Happ. simpl. lia.
  - rewrite decide_False; [done|].
    intros [Hempty|Hshort].
    + rewrite Hempty in Happ. simpl in Happ. lia.
    + rewrite Happ in Hshort. destruct t; [done|simpl in Hshort; lia].
Qed.

(** The scheme is not compared with "Bearer ": "Bearer tok-alice" and
    "Basic  tok-alice" open the same session lookup for alice, and the
    [X-Username] sent by the client is dropped. *)
Lemma authMiddleware_scheme_unchecked_witness :
  authMiddleware sample_verify handleGetSession st_active
    {| URLPath := "/api/session"; Authorization := "Bearer tok-alice";
       inner := request http.MethodGet "mallory" None |} =
  Get st_active "alice" ∧
  authMiddleware sample_verify handleGetSession st_active
    {| URLPath := "/api/session"; Authorization := "Basic  tok-alice";
       inner := request http.MethodGet "mallory" None |} =
  Get st_active "alice".
Proof.
  split.
  - exact (authMiddleware_scheme_unchecked sample_verify handleGetSession
             st_active "/api/session" "Bearer " "tok-alice"
             (request http.MethodGet "mallory" None) eq_refl).
  - exact (authMiddleware_scheme_unchecked sample_verify handleGetSession
             st_active "/api/session" "Basic  " "tok-alice"
             (request http.MethodGet "mallory" None) eq_refl).
Defined.

Lemma authMiddleware_refused verifyToken next st r :
  (String.length (Authorization r) < 8)%nat ∨
  verifyToken (slice_from 7 (Authorization r)) = None →
  ∃ msg, authMiddleware verifyToken next st r =
         reject st msg http.StatusUnauthorized.
Proof.
  intros Hbad. unfold authMiddleware.
  case_decide as Hhdr; [by eexists|].
  destruct Hbad as [Hshort|Hnone].
  - exfalso. apply Hhdr. by right.
  - rewrite Hnone. by eexists.
Qed.

Lemma authMiddleware_verified verifyToken next st r username :
  (8 ≤ String.length (Authorization r))%nat →
  verifyToken (slice_from 7 (Authorization r)) = Some username →
  authMiddleware verifyToken next st r =
  next st (set_XUsername (inner r) username).
Proof.
  intros Hlen Htok. unfold authMiddleware.
  rewrite decide_False, Htok; [done|].
  intros [Hempty|Hshort]; [rewrite Hempty in Hlen; simpl in Hlen|]; lia.
Qed.

(** ** Routing *)

(** X11: a request without a verifiable token changes nothing.  Whatever the
    path, the method and the body, if the [Authorization] header is shorter
    than eight bytes or the token check refuses what follows its seventh
    byte, [handleSessionRoutes] answers with an error of status 401, 404 or
    405, leaves all three maps as they were and pushes no frame; on the five
    routes that exist the status is 401. *)
Theorem routes_unauthenticated verifyToken st r uuid now :
  (String.length (Authorization r) < 8)%nat ∨
  verifyToken (slice_from 7 (Authorization r)) = None →
  (∃ msg code,
     handleSessionRoutes verifyToken st r uuid now = reject st msg code ∧
     (code = 401 ∨ code = 404 ∨ code = 405)%Z) ∧
  ((URLPath r = "/api/session" ∧
    (Method (inner r) = "POST" ∨ Method (inner r) = "GET" ∨
     Method (inner r) = "DELETE")) ∨
   URLPath r = "/api/session/accept" ∨ URLPath r = "/api/session/decline" →
   ∃ msg, handleSessionRoutes verifyToken st r uuid now =
          reject st msg 401).
Proof.
  intros Hbad.
  pose proof (λ next, authMiddleware_refused verifyToken next st r Hbad)
    as Hrej.
  split.
  - unfold handleSessionRoutes.
    repeat case_decide;
      try (destruct (Hrej handleGetSession) as [msg ->]);
      try (destruct (Hrej handleCancelSession) as [msg ->]);
      try (destruct (Hrej handleAcceptSession) as [msg ->]);
      try (destruct (Hrej handleDeclineSession) as [msg ->]);
      try (destruct (Hrej (λ st r, handleCreateSession st r uuid now))
             as [msg ->]);
      eexists _, _; (split; [reflexivity|]); auto.
  - unfold handleSessionRoutes.
    intros [[Hp Hm]|[Hp|Hp]]; rewrite Hp; simpl.
    + destruct Hm as [Hm|[Hm|Hm]]; rewrite Hm; simpl; apply Hrej.
    + apply Hrej.
    + apply Hrej.
Qed.

Lemma routes_unauthenticated_witness :
  ∃ msg,
    handleSessionRoutes sample_verify st_active
      {| URLPath := "/api/session"; Authorization := "Bearer tok-eve";
         inner := request http.MethodDelete "alice" None |} "s2" 1 =
    reject st_active msg 401.
Proof.
  destruct (routes_unauthenticated sample_verify st_active
              {| URLPath := "/api/session"; Authorization := "Bearer tok-eve";
                 inner := request http.MethodDelete "alice" None |} "s2" 1)
    as [_ Hroute].
  - right. reflexivity.
  - apply Hroute. left. split; [reflexivity|]. right; right. reflexivity.
Defined.

(** X12: with a header of at least eight bytes whose tail is verified as
    [username], the router runs the operation of the lifecycle engine for
    that name: POST /api/session is Create with the target and type of the
    body, GET /api/session is Get, DELETE /api/session is Cancel,
    POST /api/session/accept is Accept and POST /api/session/decline is
    Decline -- whatever [X-Username] the client sent, and whatever body came
    with the four requests that carry none. *)
Theorem routes_authenticated verifyToken st auth username sent_name body
    target kind uuid now :
  (8 ≤ String.length auth)%nat →
  verifyToken (slice_from 7 auth) = Some username →
  let req path method body :=
    {| URLPath := path; Authorization := auth;
       inner := request method sent_name body |} in
  handleSessionRoutes verifyToken st
    (req "/api/session" "POST"
       (Some {| TargetUsername := target; ReqType := kind |})) uuid now =
    Create st username target kind uuid now ∧
  handleSessionRoutes verifyToken st (req "/api/session" "GET" body)
    uuid now = Get st username ∧
  handleSessionRoutes verifyToken st (req "/api/session" "DELETE" body)
    uuid now = Cancel st username ∧
  handleSessionRoutes verifyToken st (req "/api/session/accept" "POST" body)
    uuid now = Accept st username ∧
  handleSessionRoutes verifyToken st (req "/api/session/decline" "POST" body)
    uuid now = Decline st username.
Proof.
  intros Hlen Htok. simpl.
  repeat apply conj; unfold handleSessionRoutes;
    rewrite !(authMiddleware_verified verifyToken _ st _ username)
      by (exact Hlen || exact Htok);
    reflexivity.
Qed.

Lemma routes_authenticated_witness :
  handleSessionRoutes sample_verify st_active
    {| URLPath := "/api/session"; Authorization := "Bearer tok-bob";
       inner := request "DELETE" "alice" None |} "s2" 1 =
  Cancel st_active "bob".
Proof.
  destruct (routes_authenticated sample_verify st_active "Bearer tok-bob"
              "bob" "alice" None "carol" "video" "s2" 1)
    as (_ & _ & Hdel & _).
  - simpl. lia.
  - reflexivity.
  - exact Hdel.
Defined.

Lemma authMiddleware_read_only verifyToken next st r :
  (∀ st' r', Method r' = Method (inner r) →
     after (next st' r') = st' ∧ sent (next st' r') = []) →
  after (authMiddleware verifyToken next st r) = st ∧
  sent (authMiddleware verifyToken next st r) = [].
Proof.
  intros Hnext. unfold authMiddleware.
  case_decide; [done|].
  destruct (verifyToken _); [|done]. by apply Hnext.
Qed.

(** X13: only four requests can write: POST and DELETE on /api/session and
    POST on /api/session/accept and /api/session/decline.  Every other
    combination of path and method -- GET /api/session included, and the
    accept and decline paths with any method but POST -- leaves the three
    maps as they were and pushes no frame, with or without a valid token. *)
Theorem routes_read_only verifyToken st r uuid now :
  ¬ (URLPath r = "/api/session" ∧
     (Method (inner r) = "POST" ∨ Method (inner r) = "DELETE")) →
  ¬ (URLPath r = "/api/session/accept" ∧ Method (inner r) = "POST") →
  ¬ (URLPath r = "/api/session/decline" ∧ Method (inner r) = "POST") →
  after (handleSessionRoutes verifyToken st r uuid now) = st ∧
  sent (handleSessionRoutes verifyToken st r uuid now) = [].
Proof.
  intros Hmain Hacc Hdec. unfold handleSessionRoutes.
  repeat case_decide; try done; try (exfalso; by auto).
  - apply authMiddleware_read_only. intros st' r' _.
    unfold handleGetSession. by repeat (case_decide || case_match).
  - apply authMiddleware_read_only. intros st' r' Hm.
    unfold handleAcceptSession. rewrite decide_True; [done|].
    rewrite Hm. intros Hpost. by apply Hacc.
  - apply authMiddleware_read_only. intros st' r' Hm.
    unfold handleDeclineSession. rewrite decide_True; [done|].
    rewrite Hm. intros Hpost. by apply Hdec.
Qed.

(** A GET on the accept path, sent by the target with a valid token, does not
    accept the call. *)
Lemma routes_read_only_witness :
  after (handleSessionRoutes sample_verify st_pending
           {| URLPath := "/api/session/accept";
              Authorization := "Bearer tok-bob";
              inner := request "GET" "bob" None |} "s2" 1) = st_pending.
Proof.
  apply (routes_read_only sample_verify st_pending
           {| URLPath := "/api/session/accept";
              Authorization := "Bearer tok-bob";
              inner := request "GET" "bob" None |} "s2" 1).
  - intros [Hp _]. discriminate Hp.
  - intros [_ Hm]. discriminate Hm.
  - intros [Hp _]. discriminate Hp.
Defined.

(** ** Reconnecting *)

(** X14: the registry keeps one channel per name and the cleanup is keyed by
    the name alone.  When [u] opens a channel [c1] and then a channel [c2],
    frames for [u] go to [c2] only; when the read loop of either channel then
    ends, its cleanup removes the registration of [u] although [c2] may still
    be open -- frames for [u] are dropped from then on -- and, in a
    well-formed store, the session [u] was in is removed with both index
    entries. *)
Theorem reconnect_then_close st u c1 c2 :
  let st2 := wsRegister (wsRegister st u c1) u c2 in
  let st3 := fst (Disconnect st2 u) in
  st2 = wsRegister st u c2 ∧
  (∀ f, notify (wsConnections st2) u f = [(c2, f)]) ∧
  wsConnections st3 !! u = None ∧
  (∀ f, notify (wsConnections st3) u f = []) ∧
  (∀ sid s, store_inv st →
     userSessions st !! u = Some sid → sessions st !! sid = Some s →
     removed st3 (set_Status s "disconnected")).
Proof.
  simpl.
  assert (Hreg : wsRegister (wsRegister st u c1) u c2 = wsRegister st u c2).
  { unfold wsRegister. simpl. by rewrite insert_insert_eq. }
  rewrite Hreg.
  assert (Hgone : wsConnections (fst (Disconnect (wsRegister st u c2) u))
                    !! u = None).
  { unfold Disconnect, wsCleanup. simpl.
    repeat case_match; apply lookup_delete_eq. }
  repeat apply conj.
  - done.
  - intros f. unfold notify. simpl. by rewrite lookup_insert_eq.
  - done.
  - intros f. unfold notify. by rewrite Hgone.
  - intros sid s Hinv Hu Hs. unfold Disconnect, wsCleanup. simpl.
    rewrite Hu, Hs. simpl.
    eapply removed_after; [done|done| |done|done].
    destruct (parties_of_actor _ _ _ _ Hinv Hu Hs) as [[He Hn]|[He Hn]].
    + left. split; [done|]. rewrite decide_False; [done|]. congruence.
    + right. split; [done|]. by rewrite decide_True.
Qed.

(** alice reconnects during her call with bob; the old socket then times
    out. *)
Lemma reconnect_then_close_witness :
  removed
    (fst (Disconnect
            (wsRegister (wsRegister st_active "alice" 1%nat) "alice" 3%nat)
            "alice"))
    {| SessionID := "s1"; Caller := "alice"; Target := "bob";
       Status := "disconnected"; SType := "video"; CreatedAt := 0 |}.
Proof.
  destruct (reconnect_then_close st_active "alice" 1%nat 3%nat)
    as (_ & _ & _ & _ & Hend).
  exact (Hend "s1"
    {| SessionID := "s1"; Caller := "alice"; Target := "bob";
       Status := "active"; SType := "video"; CreatedAt := 0 |}
    (reachable_store_inv _ st_active_reachable) eq_refl eq_refl).
Defined.

(** ** What a well-formed store rules out *)

(** X15: the "Session not found" answer is a defensive branch: in a
    well-formed store -- hence in every reachable state -- no handler gives
    it, for any request. *)
Theorem session_not_found_unreachable st a msg code :
  store_inv st →
  http_response st a = Some (HttpError msg code) →
  core_error msg ≠ Some SessionNotFound.
Proof.
  intros Hinv Hresp.
  assert (Hres : ∀ u sid, userSessions st !! u = Some sid →
                          sessions st !! sid = None → False).
  { intros u sid Hu Hs.
    destruct (inv_resolves _ Hinv _ _ Hu) as (s & Hs' & _). congruence. }
  destruct a as [r uuid now|r|r|r|r|u c|u m|u]; simpl in Hresp;
    try discriminate; injection Hresp as Hresp; revert Hresp;
    unfold handleCreateSession, handleGetSession, handleAcceptSession,
      handleDeclineSession, handleCancelSession, reject;
    repeat (case_decide || case_match); simpl;
    intros [= <- <-]; try (vm_compute; discriminate);
    exfalso; eauto.
Qed.

Lemma session_not_found_unreachable_witness :
  core_error "No pending session" ≠ Some SessionNotFound.
Proof.
  apply (session_not_found_unreachable st_active
           (DoAccept (request http.MethodPost "carol" None))
           "No pending session" 404%Z).
  - apply reachable_store_inv, st_active_reachable.
  - reflexivity.
Defined.

(** X16: what Get shows.  In a well-formed store, a session returned by
    Get(u) has [u] as its caller or its target, is pending or active -- never
    declined, cancelled or disconnected -- and is the very record Get returns
    to the other party; and Get(u) fails, with NoSession, exactly when [u] has
    no index entry. *)
Theorem get_view st u :
  store_inv st →
  (∀ s, returns (Get st u) s →
     (Caller s = u ∨ Target s = u) ∧
     (Status s = "pending" ∨ Status s = "active") ∧
     ¬ terminal (Status s) ∧
     returns (Get st (Caller s)) s ∧ returns (Get st (Target s)) s) ∧
  (userSessions st !! u = None ↔ fails_with (Get st u) st NoSession) ∧
  (is_Some (userSessions st !! u) ↔ ∃ s, returns (Get st u) s).
Proof.
  intros Hinv. repeat apply conj.
  - intros s. unfold returns, Get, handleGetSession. simpl.
    destruct (userSessions st !! u) as [sid|] eqn:Hu; [|done].
    destruct (sessions st !! sid) as [s0|] eqn:Hs; [|done].
    simpl. intros [= <-].
    destruct (inv_indexed _ Hinv _ _ Hs) as [Hc Ht].
    destruct (inv_status _ Hinv _ _ Hs) as [Hp|Hp].
    + repeat apply conj.
      * destruct (parties_of_actor _ _ _ _ Hinv Hu Hs) as [[-> _]|[-> _]];
          auto.
      * by left.
      * rewrite Hp. by intros [?|[?|?]].
      * by rewrite Hc, Hs.
      * by rewrite Ht, Hs.
    + repeat apply conj.
      * destruct (parties_of_actor _ _ _ _ Hinv Hu Hs) as [[-> _]|[-> _]];
          auto.
      * by right.
      * rewrite Hp. by intros [?|[?|?]].
      * by rewrite Hc, Hs.
      * by rewrite Ht, Hs.
  - apply Get_NoSession.
  - intros (msg & code & Hget & Herr). revert Hget.
    unfold Get, handleGetSession. simpl.
    destruct (userSessions st !! u) as [sid|] eqn:Hu; [|done].
    destruct (inv_resolves _ Hinv _ _ Hu) as (s & -> & _). done.
  - intros [sid Hu].
    destruct (inv_resolves _ Hinv _ _ Hu) as (s & Hs & _).
    exists s. unfold returns. by rewrite (Get_indexed st u sid s).
  - intros [s Hret]. revert Hret.
    unfold returns, Get, handleGetSession. simpl.
    destruct (userSessions st !! u) as [sid|] eqn:Hu; [eauto|done].
Qed.

Lemma get_view_witness :
  returns (Get st_two_calls "alice")
    {| SessionID := "s1"; Caller := "alice"; Target := "bob";
       Status := "active"; SType := "video"; CreatedAt := 0 |} ∧
  fails_with (Get st_two_calls "erin") st_two_calls NoSession.
Proof.
  destruct (get_view st_two_calls "bob"
              (reachable_store_inv _ st_two_calls_reachable))
    as (Hview & _).
  destruct (get_view st_two_calls "erin"
              (reachable_store_inv _ st_two_calls_reachable))
    as (_ & Hnone & _).
  split.
  - apply (Hview
      {| SessionID := "s1"; Caller := "alice"; Target := "bob";
         Status := "active"; SType := "video"; CreatedAt := 0 |}).
    reflexivity.
  - apply Hnone. reflexivity.
Defined.
